(** * Sovera backend: a shallow embedding of the dynamic-table core

    The development follows the layout of [src/backend]:

    - [Py]            the few Python built-ins the code relies on
                      ([str.lower], [str.strip], [re.match] with [$]);
    - [Models]        [models/project.py], [models/project_membership.py];
    - [Rbac]          [utils/rbac.py] and the access gates of
                      [projects/tables_router.py] and
                      [projects/table_rows_router.py];
    - [Projects]      [projects/router.py] and [services/provisioning.py],
                      with the constraints of the project table that a
                      [session.commit()] can be refused for;
    - [TableSchema]   [models/table_schema.py];
    - [TableRows]     [projects/table_rows_router.py];
    - [WebSocketManager]  [utils/websocket_manager.py].

    Strings are byte strings ([string] of [ascii]); the identifiers the
    code accepts are ASCII, and the case mapping is the ASCII one.  Where
    the code lowers or strips text it has not matched against an ASCII
    pattern first (project names), the statements carry the hypothesis
    [Py.is_ascii]. *)

From Stdlib Require Import ZArith Ascii String List Bool Lia.
From Stdlib Require Import Floats.SpecFloat.
From stdpp Require Import gmap strings list fin_maps pretty.

Open Scope Z_scope.
Open Scope string_scope.

(** Outcome of a piece of code that may raise: [Raise e] is the exception,
    [Return a] the value. *)
Inductive Result (E A : Type) : Type :=
  | Raise (e : E)
  | Return (a : A).
Arguments Raise {E A} e.
Arguments Return {E A} a.

Definition bind {E A B} (r : Result E A) (k : A -> Result E B) : Result E B :=
  match r with
  | Raise e => Raise e
  | Return a => k a
  end.

Notation "x <- r ;; k" := (bind r (fun x => k))
  (at level 100, r at next level, right associativity).

Definition raised {E A} (r : Result E A) : Prop :=
  match r with Raise _ => True | Return _ => False end.

(** ** Python built-ins used by the code *)

Module Py.

Definition nl : ascii := ascii_of_nat 10.
Definition between (lo hi c : ascii) : bool :=
  (nat_of_ascii lo <=? nat_of_ascii c)%nat && (nat_of_ascii c <=? nat_of_ascii hi)%nat.
Definition is_upper (c : ascii) : bool := between "A" "Z" c.
Definition is_lower (c : ascii) : bool := between "a" "z" c.
Definition is_digit (c : ascii) : bool := between "0" "9" c.
Definition is_alpha (c : ascii) : bool := is_upper c || is_lower c.

(** The ASCII characters for which [str.isspace] holds and which [\s]
    matches: tab to carriage return, the four separators, space. *)
Definition is_space (c : ascii) : bool :=
  let n := nat_of_ascii c in
  ((9 <=? n) && (n <=? 13) || (28 <=? n) && (n <=? 31) || (n =? 32))%nat.

Definition lower_char (c : ascii) : ascii :=
  if is_upper c then ascii_of_nat (nat_of_ascii c + 32) else c.

(** [str.lower], on ASCII text. *)
Fixpoint lower (s : string) : string :=
  match s with
  | EmptyString => EmptyString
  | String c s' => String (lower_char c) (lower s')
  end.

(** [s.replace(a, b)] for single characters. *)
Fixpoint replace (a b : ascii) (s : string) : string :=
  match s with
  | EmptyString => EmptyString
  | String c s' => String (if Ascii.eqb c a then b else c) (replace a b s')
  end.

Fixpoint keep (p : ascii -> bool) (s : string) : string :=
  match s with
  | EmptyString => EmptyString
  | String c s' => if p c then String c (keep p s') else keep p s'
  end.

Fixpoint lstrip (s : string) : string :=
  match s with
  | EmptyString => EmptyString
  | String c s' => if is_space c then lstrip s' else s
  end.

(** [str.strip] *)
Definition strip (s : string) : string :=
  String.rev (lstrip (String.rev (lstrip s))).

(** [re.sub(r'C+', r, s)] for a character class [C] and a one-character
    replacement: every maximal run of [C] becomes one [r]. *)
Fixpoint sub_runs (p : ascii -> bool) (r : ascii) (in_run : bool) (s : string) : string :=
  match s with
  | EmptyString => EmptyString
  | String c s' =>
    if p c then (if in_run then sub_runs p r true s' else String r (sub_runs p r true s'))
    else String c (sub_runs p r false s')
  end.

(** [s[:n]] *)
Definition take (n : nat) (s : string) : string := String.substring 0 n s.

Fixpoint prefix_of (p s : string) : bool :=
  match p, s with
  | EmptyString, _ => true
  | String a p', String b s' => Ascii.eqb a b && prefix_of p' s'
  | String _ _, EmptyString => false
  end.

(** [sub in s] *)
Fixpoint contains (sub s : string) : bool :=
  prefix_of sub s ||
  match s with
  | EmptyString => false
  | String _ s' => contains sub s'
  end.

(** [", ".join(l)] and friends. *)
Fixpoint join (sep : string) (l : list string) : string :=
  match l with
  | [] => ""
  | [x] => x
  | x :: l' => x +:+ sep +:+ join sep l'
  end.

(** The word characters of the identifier pattern, [[a-zA-Z0-9_]]. *)
Definition is_word (c : ascii) : bool := is_alpha c || is_digit c || Ascii.eqb c "_".
Definition is_word_start (c : ascii) : bool := is_alpha c || Ascii.eqb c "_".

(** [[a-zA-Z0-9_]*$] against the rest of the subject.  [$] matches at
    the end of the string and also just before a newline that ends it. *)
Fixpoint match_word_tail (s : string) : bool :=
  match s with
  | EmptyString => true
  | String c s' =>
    if is_word c then match_word_tail s'
    else Ascii.eqb c nl && String.eqb s' EmptyString
  end.

(** [re.match(r'^[a-zA-Z_][a-zA-Z0-9_]*$', s)], as a truth value. *)
Definition re_match_identifier (s : string) : bool :=
  match s with
  | EmptyString => false
  | String c s' => is_word_start c && match_word_tail s'
  end.

(** The string is ASCII text.  On such strings [lower], [is_space] and
    [strip] are Python's [str.lower], [\s] and [str.strip]; on others
    Python follows Unicode. *)
Definition is_ascii (s : string) : bool :=
  forallb (fun c => (nat_of_ascii c <? 128)%nat) (list_ascii_of_string s).

End Py.

(** ** Models *)

Module Models.

(** [models/project_membership.py] *)
Inductive ProjectRole := OWNER | EDITOR | VIEWER.
Inductive InvitationStatus := PENDING | ACCEPTED | REJECTED | EXPIRED.

Global Instance ProjectRole_eq_dec : EqDecision ProjectRole.
Proof. solve_decision. Defined.
Global Instance InvitationStatus_eq_dec : EqDecision InvitationStatus.
Proof. solve_decision. Defined.

Record ProjectMembership := {
  project_id : Z;
  user_id : Z;
  role : ProjectRole;
  status : InvitationStatus
}.

(** [models/project.py], class [Project].  [api_key] and [created_at]
    are drawn from the clock and the random source and play no part
    below. *)
Record Project := {
  p_id : Z;
  name : string;
  description : option string;
  slug : string;
  db_name : string;
  bucket_name : string;
  max_items : option Z;
  storage_limit_mb : option Z;
  api_rate_limit : option Z;
  webhook_url : option string;
  is_public : bool;
  auto_backup : bool;
  backup_retention_days : option Z;
  provisioning_status : string;
  owner_id : Z
}.

(** The part of the SQLModel session the code reads: the project table,
    keyed by primary key ([session.get(Project, id)]), and the
    membership rows in table order. *)
Record Session := {
  projects : gmap Z Project;
  memberships : list ProjectMembership
}.

Record HTTPException := { status_code : Z }.

End Models.

(** ** Permission engine and access gates *)

Module Rbac.
Import Models.

(** [PermissionManager.ROLE_HIERARCHY] *)
Definition ROLE_HIERARCHY (r : ProjectRole) : list ProjectRole :=
  match r with
  | OWNER => [EDITOR; VIEWER]
  | EDITOR => [VIEWER]
  | VIEWER => []
  end.

(** [PermissionManager.PERMISSIONS] *)
Definition PERMISSIONS (r : ProjectRole) : gset string :=
  match r with
  | OWNER => list_to_set
      [ "project:read"; "project:update"; "project:delete";
        "members:read"; "members:invite"; "members:update"; "members:remove";
        "tables:read"; "tables:create"; "tables:update"; "tables:delete";
        "data:read"; "data:create"; "data:update"; "data:delete";
        "files:read"; "files:upload"; "files:delete";
        "settings:read"; "settings:update" ]
  | EDITOR => list_to_set
      [ "project:read";
        "members:read";
        "tables:read"; "tables:create"; "tables:update"; "tables:delete";
        "data:read"; "data:create"; "data:update"; "data:delete";
        "files:read"; "files:upload"; "files:delete";
        "settings:read" ]
  | VIEWER => list_to_set
      [ "project:read";
        "members:read";
        "tables:read";
        "data:read";
        "files:read";
        "settings:read" ]
  end.

(** The [where] clause of the membership query in [get_user_role]. *)
Definition accepted_membership (user project : Z) (m : ProjectMembership) : bool :=
  bool_decide (user_id m = user) && bool_decide (project_id m = project)
  && bool_decide (status m = ACCEPTED).

(** [PermissionManager.get_user_role] *)
Definition get_user_role (user project : Z) (session : Session) : option ProjectRole :=
  let is_owner :=
    match projects session !! project with
    | Some p => bool_decide (owner_id p = user)
    | None => false
    end in
  if is_owner then Some OWNER
  else role <$> head (List.filter (accepted_membership user project) (memberships session)).

(** [PermissionManager.has_permission] *)
Definition has_permission (r : ProjectRole) (permission : string) : bool :=
  bool_decide (permission ∈ PERMISSIONS r).

(** [PermissionManager.has_role_or_higher] *)
Definition has_role_or_higher (user_role required_role : ProjectRole) : bool :=
  if bool_decide (user_role = required_role) then true
  else bool_decide (required_role ∈ ROLE_HIERARCHY user_role).

(** [PermissionManager.get_effective_permissions] *)
Definition get_effective_permissions (r : ProjectRole) : gset string :=
  fold_left (fun permissions lower_role => permissions ∪ PERMISSIONS lower_role)
            (ROLE_HIERARCHY r) (∅ ∪ PERMISSIONS r).

(** [get_project_with_role] *)
Definition get_project_with_role (required_role : ProjectRole)
    (project user : Z) (session : Session) : Result HTTPException Project :=
  match projects session !! project with
  | None => Raise {| status_code := 404 |}
  | Some p =>
    match get_user_role user project session with
    | None => Raise {| status_code := 403 |}
    | Some user_role =>
      if has_role_or_higher user_role required_role then Return p
      else Raise {| status_code := 403 |}
    end
  end.

Definition require_project_editor := get_project_with_role EDITOR.
Definition require_project_viewer := get_project_with_role VIEWER.

(** [get_project_and_verify_access] of [projects/table_rows_router.py] *)
Definition get_project_and_verify_access (project user : Z) (session : Session)
    : Result HTTPException Project :=
  match projects session !! project with
  | None => Raise {| status_code := 404 |}
  | Some p =>
    if negb (bool_decide (owner_id p = user)) then Raise {| status_code := 403 |}
    else if negb (String.eqb (provisioning_status p) "completed")
         then Raise {| status_code := 400 |}
    else Return p
  end.

(** The dynamic operations and, for each endpoint, what it runs before
    it touches the tenant database. *)
Inductive DynamicOp :=
  | CreateTable | ListTables | GetSchema | DropTable | InsertRow | SelectRows.

Definition authorize (op : DynamicOp) (project user : Z) (session : Session)
    : Result HTTPException Project :=
  match op with
  | CreateTable =>
      p <- require_project_editor project user session ;;
      if negb (String.eqb (provisioning_status p) "completed")
      then Raise {| status_code := 400 |} else Return p
  | ListTables | GetSchema => require_project_viewer project user session
  | DropTable => require_project_editor project user session
  | InsertRow | SelectRows => get_project_and_verify_access project user session
  end.

(** The permission of [PERMISSIONS] each operation stands for. *)
Definition required_permission (op : DynamicOp) : string :=
  match op with
  | CreateTable => "tables:create"
  | ListTables | GetSchema => "tables:read"
  | DropTable => "tables:delete"
  | InsertRow => "data:create"
  | SelectRows => "data:read"
  end.

(** What the claim calls the gate: role resolution plus permission check. *)
Definition permission_engine_allows (op : DynamicOp) (project user : Z)
    (session : Session) : Prop :=
  exists r, get_user_role user project session = Some r
            /\ has_permission r (required_permission op) = true.

Definition is_owner (user project : Z) (session : Session) : Prop :=
  exists p, projects session !! project = Some p /\ owner_id p = user.

Definition acme : Project :=
  {| p_id := 1; name := "acme"; description := None; slug := "acme-0a1b2c3d";
     db_name := "project_acme_0a1b2c3d_db"; bucket_name := "project-acme-0a1b2c3d-bucket";
     max_items := Some 1000; storage_limit_mb := Some 100; api_rate_limit := Some 1000;
     webhook_url := None; is_public := false; auto_backup := true;
     backup_retention_days := Some 30; provisioning_status := "completed";
     owner_id := 10 |}.

(** Tenant 1 is owned by user 10; user 20 is an accepted editor, user 30
    was rejected and user 40's invitation expired. *)
Definition acme_session : Session :=
  {| projects := {[ 1 := acme ]};
     memberships :=
       [ {| project_id := 1; user_id := 30; role := EDITOR; status := REJECTED |};
         {| project_id := 1; user_id := 20; role := EDITOR; status := ACCEPTED |};
         {| project_id := 1; user_id := 40; role := VIEWER; status := EXPIRED |} ] |}.

End Rbac.

(** ** Project creation and provisioning *)

Module Projects.
Import Models.

(** [generate_slug] of [models/project.py]; [hex8] is
    [uuid.uuid4().hex[:8]], drawn by the caller's environment.  The
    name is read as ASCII text: [str.lower], [\s] and [str.strip] are
    the ASCII ones of [Py], which is what Python computes on an ASCII
    name and not on others. *)
Definition generate_slug (name hex8 : string) : string :=
  let slug := Py.keep (fun c => Py.is_alpha c || Py.is_digit c || Py.is_space c
                                || Ascii.eqb c "-") (Py.lower name) in
  let slug := Py.sub_runs Py.is_space "-" false (Py.strip slug) in
  let slug := Py.sub_runs (fun c => Ascii.eqb c "-") "-" false slug in
  slug +:+ "-" +:+ hex8.

Record ProjectCreate := {
  pc_name : string;
  pc_description : option string;
  pc_max_items : option Z;
  pc_storage_limit_mb : option Z;
  pc_api_rate_limit : option Z;
  pc_webhook_url : option string;
  pc_is_public : option bool;
  pc_auto_backup : option bool;
  pc_backup_retention_days : option Z
}.

(** [x or d] on an optional integer: [None] and [0] are falsy. *)
Definition or_int (x : option Z) (d : Z) : Z :=
  match x with
  | Some v => if Z.eqb v 0 then d else v
  | None => d
  end.

(** The primary key the database hands out on [commit]. *)
Definition fresh_id (m : gmap Z Project) : Z :=
  1 + map_fold (fun k _ acc => Z.max k acc) 0 m.

(** PostgreSQL's INTEGER, the type of the quota columns. *)
Definition fits_integer (v : option Z) : bool :=
  match v with
  | Some n => ((-2147483648 <=? n) && (n <=? 2147483647))%Z
  | None => true
  end.

Definition quotas_fit (p : Project) : bool :=
  fits_integer (max_items p) && fits_integer (storage_limit_mb p)
  && fits_integer (api_rate_limit p) && fits_integer (backup_retention_days p).

(** [unique=True] on [slug], [db_name] and [bucket_name] of
    [models/project.py]: no row other than [key] holds one of the three
    names. *)
Definition holds_one_of (names : string * string * string) (q : Project) : bool :=
  let '(slug', db_name', bucket_name') := names in
  String.eqb (slug q) slug' || String.eqb (db_name q) db_name'
  || String.eqb (bucket_name q) bucket_name'.

Definition names_free (m : gmap Z Project) (key : Z) (names : string * string * string)
    : bool :=
  forallb (fun '(k, q) => (k =? key)%Z || negb (holds_one_of names q)) (map_to_list m).

Definition store (session : Session) (project : Z) (p : Project) : Session :=
  {| projects := <[project := p]> (projects session);
     memberships := memberships session |}.

(** [create_project] of [projects/router.py]: the record is written with
    status pending and the names derived from a first slug.  The commit
    is refused when a quota does not fit its INTEGER column or another
    project holds the slug or one of the names; [commit_ok] is the
    database's word on everything else.  A refused commit is the 500 of
    the [except] clause and leaves the table as it was.  [current_user]
    is the id of the authenticated user. *)
Definition create_project (session : Session) (project_in : ProjectCreate)
    (current_user : Z) (hex8 : string) (commit_ok : bool)
    : Result HTTPException (Session * Project) :=
  let slug := generate_slug (pc_name project_in) hex8 in
  let db_name := "project_" +:+ Py.replace "-" "_" slug +:+ "_db" in
  let bucket_name := "project-" +:+ slug +:+ "-bucket" in
  let project := {|
    p_id := fresh_id (projects session);
    name := pc_name project_in;
    description := pc_description project_in;
    owner_id := current_user;
    slug := slug;
    db_name := db_name;
    bucket_name := bucket_name;
    provisioning_status := "pending";
    max_items := Some (or_int (pc_max_items project_in) 1000);
    storage_limit_mb := Some (or_int (pc_storage_limit_mb project_in) 100);
    api_rate_limit := Some (or_int (pc_api_rate_limit project_in) 1000);
    webhook_url := pc_webhook_url project_in;
    is_public := match pc_is_public project_in with Some b => b | None => false end;
    auto_backup := match pc_auto_backup project_in with Some b => b | None => true end;
    backup_retention_days := Some (or_int (pc_backup_retention_days project_in) 30)
  |} in
  if commit_ok && quotas_fit project
     && names_free (projects session) (p_id project) (slug, db_name, bucket_name)
  then Return (store session (p_id project) project, project)
  else Raise {| status_code := 500 |}.

(** What the provisioning task meets outside the process: the random
    suffix it draws, whether the database and the bucket could be
    created, and the database's word, the unique constraint apart, on
    the commit that stores the names ([commit_ok]) and on the commit that
    stores the failed status ([status_commit_ok]). *)
Record Env := {
  uuid_hex8 : string;
  postgres_ok : bool;
  minio_ok : bool;
  commit_ok : bool;
  status_commit_ok : bool
}.

Inductive ProvisioningError := ProvisioningFailed.

(** The exception of a [session.commit()] that no handler catches. *)
Inductive CommitError := CommitRefused.

(** [ProvisioningService.generate_project_names] *)
Definition generate_project_names (project_name hex8 : string)
    : string * string * string :=
  let slug := generate_slug project_name hex8 in
  let db_name := "project_" +:+ Py.replace "-" "_" slug +:+ "_db" in
  let bucket_name := "project-" +:+ slug +:+ "-bucket" in
  let db_name := Py.take 63 (Py.lower db_name) in
  let bucket_name := Py.take 63 (Py.lower bucket_name) in
  (slug, db_name, bucket_name).

(** [ProvisioningService.provision_project] *)
Definition provision_project (project_name : string) (env : Env)
    : Result ProvisioningError (string * string * string) :=
  let names := generate_project_names project_name (uuid_hex8 env) in
  if negb (postgres_ok env) then Raise ProvisioningFailed
  else if negb (minio_ok env) then Raise ProvisioningFailed
  else Return names.

Definition set_infrastructure (p : Project) (slug' db_name' bucket_name' : string)
    : Project :=
  {| p_id := p_id p; name := name p; description := description p;
     slug := slug'; db_name := db_name'; bucket_name := bucket_name';
     max_items := max_items p; storage_limit_mb := storage_limit_mb p;
     api_rate_limit := api_rate_limit p; webhook_url := webhook_url p;
     is_public := is_public p; auto_backup := auto_backup p;
     backup_retention_days := backup_retention_days p;
     provisioning_status := "completed"; owner_id := owner_id p |}.

Definition set_status (p : Project) (st : string) : Project :=
  {| p_id := p_id p; name := name p; description := description p;
     slug := slug p; db_name := db_name p; bucket_name := bucket_name p;
     max_items := max_items p; storage_limit_mb := storage_limit_mb p;
     api_rate_limit := api_rate_limit p; webhook_url := webhook_url p;
     is_public := is_public p; auto_backup := auto_backup p;
     backup_retention_days := backup_retention_days p;
     provisioning_status := st; owner_id := owner_id p |}.

(** The two [except] clauses of the task: the record is read again and
    stored with status failed.  The commit writes the status column
    alone; when the database refuses it the exception leaves the task and
    the table stays as it was. *)
Definition mark_failed (project : Z) (session : Session) (env : Env)
    : Result CommitError Session :=
  match projects session !! project with
  | Some p =>
    if status_commit_ok env then Return (store session project (set_status p "failed"))
    else Raise CommitRefused
  | None => Return session
  end.

(** [provision_project_infrastructure], the background task scheduled by
    [create_project].  The commit that stores the generated names is
    refused when another project holds one of them; the session is then
    rolled back, so that [except Exception] finds the record as it was
    before the task. *)
Definition provision_project_infrastructure (project : Z) (project_name : string)
    (session : Session) (env : Env) : Result CommitError Session :=
  match provision_project project_name env with
  | Return (slug, db_name, bucket_name) =>
    match projects session !! project with
    | Some p =>
      if commit_ok env
         && names_free (projects session) project (slug, db_name, bucket_name)
      then Return (store session project (set_infrastructure p slug db_name bucket_name))
      else mark_failed project session env
    | None => Return session
    end
  | Raise _ => mark_failed project session env
  end.

(** One entry of [project_update.model_dump(exclude_unset=True)]: the
    fields [ProjectUpdate] declares, and no other. *)
Inductive FieldUpdate :=
  | SetName (v : string)
  | SetDescription (v : option string)
  | SetMaxItems (v : option Z)
  | SetStorageLimitMb (v : option Z)
  | SetApiRateLimit (v : option Z)
  | SetWebhookUrl (v : option string)
  | SetIsPublic (v : bool)
  | SetAutoBackup (v : bool)
  | SetBackupRetentionDays (v : option Z).

(** [setattr(project, field, value)] *)
Definition setattr (p : Project) (u : FieldUpdate) : Project :=
  {| p_id := p_id p;
     name := match u with SetName v => v | _ => name p end;
     description := match u with SetDescription v => v | _ => description p end;
     slug := slug p; db_name := db_name p; bucket_name := bucket_name p;
     max_items := match u with SetMaxItems v => v | _ => max_items p end;
     storage_limit_mb :=
       match u with SetStorageLimitMb v => v | _ => storage_limit_mb p end;
     api_rate_limit := match u with SetApiRateLimit v => v | _ => api_rate_limit p end;
     webhook_url := match u with SetWebhookUrl v => v | _ => webhook_url p end;
     is_public := match u with SetIsPublic v => v | _ => is_public p end;
     auto_backup := match u with SetAutoBackup v => v | _ => auto_backup p end;
     backup_retention_days :=
       match u with SetBackupRetentionDays v => v | _ => backup_retention_days p end;
     provisioning_status := provisioning_status p; owner_id := owner_id p |}.

(** [update_project] *)
Definition update_project (session : Session) (project : Z)
    (update_data : list FieldUpdate) (current_user : Z)
    : Result HTTPException (Session * Project) :=
  match projects session !! project with
  | None => Raise {| status_code := 404 |}
  | Some p =>
    if negb (bool_decide (owner_id p = current_user)) then Raise {| status_code := 403 |}
    else let p' := fold_left setattr update_data p in
         Return (store session project p', p')
  end.





(** The provisioning task stores its names: both backends were created,
    the database has no objection and no other project holds a name. *)
Definition renames (project : Z) (project_name : string) (session : Session)
    (env : Env) : bool :=
  postgres_ok env && minio_ok env && commit_ok env
  && names_free (projects session) project
       (generate_project_names project_name (uuid_hex8 env)).

(** Creation followed by the provisioning task it schedules: the task
    draws a slug of its own and stores the names derived from it. *)
Definition shop : ProjectCreate :=
  {| pc_name := "Shop"; pc_description := None; pc_max_items := None;
     pc_storage_limit_mb := None; pc_api_rate_limit := None; pc_webhook_url := None;
     pc_is_public := None; pc_auto_backup := None; pc_backup_retention_days := None |}.

Definition no_projects : Session := {| projects := ∅; memberships := [] |}.

Definition shop_project : Project :=
  {| p_id := 1; name := "Shop"; description := None;
     slug := "shop-0a1b2c3d"; db_name := "project_shop_0a1b2c3d_db";
     bucket_name := "project-shop-0a1b2c3d-bucket";
     max_items := Some 1000; storage_limit_mb := Some 100; api_rate_limit := Some 1000;
     webhook_url := None; is_public := false; auto_backup := true;
     backup_retention_days := Some 30; provisioning_status := "pending";
     owner_id := 10 |}.

Definition shop_session : Session := store no_projects 1 shop_project.

Definition all_well : Env :=
  {| uuid_hex8 := "4e5f6a7b"; postgres_ok := true; minio_ok := true;
     commit_ok := true; status_commit_ok := true |}.


End Projects.

(** ** Table specifications *)

Module TableSchema.

Inductive ColumnType :=
  | INTEGER | BIGINT | SMALLINT | DECIMAL | NUMERIC | REAL | DOUBLE_PRECISION
  | TEXT | VARCHAR | CHAR
  | TIMESTAMP | TIMESTAMPTZ | DATE | TIME
  | BOOLEAN
  | JSON | JSONB
  | UUID.

Global Instance ColumnType_eq_dec : EqDecision ColumnType.
Proof. solve_decision. Defined.

(** [ColumnType.value] *)
Definition type_value (t : ColumnType) : string :=
  match t with
  | INTEGER => "INTEGER" | BIGINT => "BIGINT" | SMALLINT => "SMALLINT"
  | DECIMAL => "DECIMAL" | NUMERIC => "NUMERIC" | REAL => "REAL"
  | DOUBLE_PRECISION => "DOUBLE PRECISION"
  | TEXT => "TEXT" | VARCHAR => "VARCHAR" | CHAR => "CHAR"
  | TIMESTAMP => "TIMESTAMP" | TIMESTAMPTZ => "TIMESTAMPTZ"
  | DATE => "DATE" | TIME => "TIME"
  | BOOLEAN => "BOOLEAN"
  | JSON => "JSON" | JSONB => "JSONB"
  | UUID => "UUID"
  end.

Record ColumnSchema := {
  name : string;
  type : ColumnType;
  nullable : bool;
  primary_key : bool;
  unique : bool;
  default : option string;
  length : option Z
}.

(** The [ValueError]s of the validators, by the rule that was broken. *)
Inductive ValueError :=
  | BadIdentifier
  | ReservedKeyword
  | ReservedTableName
  | LengthNotApplicable
  | LengthOutOfRange
  | NoColumns
  | DuplicateColumnNames
  | SeveralPrimaryKeys.

Definition reserved_keywords : gset string := list_to_set
  [ "select"; "from"; "where"; "insert"; "update"; "delete"; "create";
    "drop"; "alter"; "table"; "index"; "primary"; "key"; "foreign";
    "references"; "constraint"; "user"; "order"; "group"; "having";
    "union"; "join"; "inner"; "outer"; "left"; "right"; "on"; "as" ].

Definition reserved_names : gset string := list_to_set
  [ "user"; "users"; "project"; "projects"; "schema"; "information_schema";
    "pg_catalog"; "pg_tables"; "pg_indexes"; "pg_views"; "pg_sequences" ].

(** [ColumnSchema.validate_column_name], the validator of the field
    [name]; pydantic calls it on a string that met the bounds of the
    field, see [column_name_field]. *)
Definition validate_column_name (v : string) : Result ValueError string :=
  if negb (Py.re_match_identifier v) then Raise BadIdentifier
  else if bool_decide (Py.lower v ∈ reserved_keywords) then Raise ReservedKeyword
  else Return (Py.lower v).

(** [ColumnSchema.validate_length] *)
Definition validate_length (v : option Z) (column_type : ColumnType)
    : Result ValueError (option Z) :=
  match v with
  | Some n =>
    if negb (bool_decide (column_type = VARCHAR) || bool_decide (column_type = CHAR))
    then Raise LengthNotApplicable
    else if ((n <=? 0) || (10485760 <? n))%Z then Raise LengthOutOfRange
    else Return v
  | None => Return v
  end.

(** [TableSchemaCreate.validate_table_name], the validator of the field
    [table_name]; see [table_name_field]. *)
Definition validate_table_name (v : string) : Result ValueError string :=
  if negb (Py.re_match_identifier v) then Raise BadIdentifier
  else if bool_decide (Py.lower v ∈ reserved_names) then Raise ReservedTableName
  else Return (Py.lower v).

(** What pydantic reports for a string field: the bounds of
    [Field(..., min_length=1, max_length=63)], which it checks on the
    input before it calls the validator, or the validator's
    [ValueError]. *)
Inductive ValidationError :=
  | StringTooShort
  | StringTooLong
  | ValidatorRaised (e : ValueError).

Definition constrained_str (validator : string -> Result ValueError string)
    (v : string) : Result ValidationError string :=
  if (String.length v <? 1)%nat then Raise StringTooShort
  else if (63 <? String.length v)%nat then Raise StringTooLong
  else match validator v with
       | Raise e => Raise (ValidatorRaised e)
       | Return w => Return w
       end.

(** The field [ColumnSchema.name]. *)
Definition column_name_field : string -> Result ValidationError string :=
  constrained_str validate_column_name.

(** The field [TableSchemaCreate.table_name]. *)
Definition table_name_field : string -> Result ValidationError string :=
  constrained_str validate_table_name.

(** The column synthesized when no primary key is declared. *)
Definition id_column : ColumnSchema :=
  {| name := "id"; type := INTEGER; nullable := false; primary_key := true;
     unique := false; default := None; length := None |}.

(** [TableSchemaCreate.validate_columns] *)
Definition validate_columns (v : list ColumnSchema)
    : Result ValueError (list ColumnSchema) :=
  match v with
  | [] => Raise NoColumns
  | _ =>
    let names := map (fun col => Py.lower (name col)) v in
    if negb (Nat.eqb (List.length names) (size (list_to_set names : gset string)))
    then Raise DuplicateColumnNames
    else
      let primary_keys := List.filter primary_key v in
      if (1 <? List.length primary_keys)%nat then Raise SeveralPrimaryKeys
      else match primary_keys with
           | [] => Return (id_column :: v)
           | _ => Return v
           end
  end.

Definition dq : string := String (ascii_of_nat 34) EmptyString.

(** [system_tables] of [TableProvisioningService.drop_table]: the
    baseline tables of every tenant database. *)
Definition system_tables : list string := ["items"; "project_metadata"; "files"].

(** The identifier grammar read as a grammar of whole names: a letter or
    underscore, then letters, digits and underscores, and nothing else. *)
Definition is_identifier (s : string) : bool :=
  match s with
  | EmptyString => false
  | String c s' => Py.is_word_start c && forallb Py.is_word (list_ascii_of_string s')
  end.

Definition has_newline (s : string) : bool :=
  existsb (Ascii.eqb Py.nl) (list_ascii_of_string s).

(** [TableProvisioningService.build_column_definition] of
    [services/table_provisioning.py] *)
Definition build_column_definition (column : ColumnSchema) : string :=
  let quoted := dq +:+ name column +:+ dq in
  let sized := bool_decide (type column = VARCHAR) || bool_decide (type column = CHAR) in
  let type_part :=
    match length column with
    | Some n =>
      if sized && negb (n =? 0)%Z
      then type_value (type column) +:+ "(" +:+ pretty n +:+ ")"
      else type_value (type column)
    | None => type_value (type column)
    end in
  let type_part :=
    if primary_key column && bool_decide (type column = INTEGER)
    then "SERIAL" else type_part in
  let parts :=
    ([quoted; type_part]
     ++ (if negb (nullable column) then ["NOT NULL"] else [])
     ++ (if unique column && negb (primary_key column) then ["UNIQUE"] else [])
     ++ (if primary_key column then ["PRIMARY KEY"] else [])
     ++ (match default column with Some d => ["DEFAULT " +:+ d] | None => [] end))%list in
  Py.join " " parts.

(** The column clauses [build_create_table_sql] joins into the statement. *)
Definition column_definitions (columns : list ColumnSchema) : list string :=
  map build_column_definition columns.

Definition id_text : ColumnSchema :=
  {| name := "id"; type := TEXT; nullable := true; primary_key := false;
     unique := false; default := None; length := None |}.

End TableSchema.

(** ** Dynamic rows *)

Module TableRows.

(** A JSON value as Python holds it. *)
#[warnings="-register-all"]
Inductive PyValue :=
  | PyNone
  | PyBool (b : bool)
  | PyInt (z : Z)
  | PyFloat (f : spec_float)
  | PyStr (s : string)
  | PyList (l : list PyValue)
  | PyDict (d : list (string * PyValue)).

(** The built-ins of the interpreter whose results the code only passes
    on: [str] of a float and of a container, [json.dumps], and the
    [int] and [float] constructors ([None] when they raise). *)
Class PyBuiltins := {
  float_str : spec_float -> string;
  container_str : PyValue -> string;
  json_dumps : PyValue -> string;
  py_int : PyValue -> option Z;
  py_float : PyValue -> option spec_float
}.

(** One row of the introspection query of [get_table_columns]. *)
Record ColumnInfo := {
  name : string;
  type : string;
  nullable : bool;
  default : option string;
  is_primary_key : bool;
  is_unique : bool
}.

(** The catalog of a tenant database: table name to introspected columns. *)
Abbreviation Catalog := (gmap string (list ColumnInfo)).

Inductive TableRowsError :=
  | TableDoesNotExist (table_name : string)
  | NoColumnsFound (table_name : string)
  | ColumnDoesNotExist (col_name table_name : string)
  | MissingRequiredColumns (missing_columns : gset string)
  | NoValidColumns
  | InsertOperationFailed.

(** What [insert_dynamic_row] hands to [conn.fetchrow]. *)
Record InsertStmt := {
  into : string;
  insert_columns : list string;
  placeholders : list string;
  insert_values : list PyValue
}.

Definition dq : string := TableSchema.dq.

Definition in_list (s : string) (l : list string) : bool :=
  existsb (String.eqb s) l.

(** [check_table_exists] *)
Definition check_table_exists (db : Catalog) (table_name : string) : bool :=
  bool_decide (is_Some (db !! table_name)).

(** [get_table_columns] *)
Definition get_table_columns (db : Catalog) (table_name : string)
    : Result TableRowsError (list ColumnInfo) :=
  match db !! table_name with
  | None => Raise (TableDoesNotExist table_name)
  | Some [] => Raise (NoColumnsFound table_name)
  | Some columns => Return columns
  end.

(** [{col["name"]: col for col in columns}]: a later row wins. *)
Definition column_map (columns : list ColumnInfo) : gmap string ColumnInfo :=
  fold_left (fun m col => <[name col := col]> m) columns ∅.

(** The comprehension that computes [required_columns]. *)
Definition required_columns (columns : list ColumnInfo) : list string :=
  map name (List.filter
    (fun col => negb (nullable col) && bool_decide (default col = None)
                && negb (is_primary_key col)) columns).

Definition missing_columns (columns : list ColumnInfo)
    (payload_dict : list (string * PyValue)) : gset string :=
  list_to_set (required_columns columns) ∖ list_to_set (map fst payload_dict).

(** [str(column_info["default"])] *)
Definition str_default (d : option string) : string :=
  match d with Some s => s | None => "None" end.

(** The test of the comment "Skip auto-increment primary keys". *)
Definition is_auto_increment (column_info : ColumnInfo) : bool :=
  is_primary_key column_info && Py.contains "nextval" (str_default (default column_info)).

Section WithBuiltins.
Context `{PyBuiltins}.

(** [str(value)] *)
Definition py_str (value : PyValue) : string :=
  match value with
  | PyNone => "None"
  | PyBool true => "True"
  | PyBool false => "False"
  | PyInt z => pretty z
  | PyFloat f => float_str f
  | PyStr s => s
  | PyList _ | PyDict _ => container_str value
  end.

(** [convert_python_to_postgres_value]; [Raise tt] is whatever [int]
    or [float] raised. *)
Definition convert_python_to_postgres_value (value : PyValue) (pg_type : string)
    : Result unit PyValue :=
  match value with
  | PyNone => Return PyNone
  | _ =>
    if in_list pg_type ["integer"; "bigint"; "smallint"] then
      match py_int value with Some z => Return (PyInt z) | None => Raise tt end
    else if in_list pg_type ["real"; "double precision"; "numeric"; "decimal"] then
      match py_float value with Some f => Return (PyFloat f) | None => Raise tt end
    else if String.eqb pg_type "boolean" then
      match value with
      | PyBool _ => Return value
      | _ => Return (PyBool (in_list (Py.lower (py_str value))
                                     ["true"; "1"; "yes"; "on"]))
      end
    else if in_list pg_type ["json"; "jsonb"] then
      match value with
      | PyDict _ | PyList _ => Return (PyStr (json_dumps value))
      | _ => Return (PyStr (py_str value))
      end
    else if in_list pg_type ["timestamp"; "timestamptz"; "date"; "time"] then
      match value with
      | PyStr _ => Return value
      | _ => Return (PyStr (py_str value))
      end
    else Return (PyStr (py_str value))
  end.

(** The loop "Prepare data for insertion": [i] is the counter of
    [enumerate(payload_dict.items(), 1)], [acc] the three lists built
    so far. *)
Fixpoint prepare (cmap : gmap string ColumnInfo) (i : Z)
    (items : list (string * PyValue))
    (acc : list string * list PyValue * list string)
    : Result TableRowsError (list string * list PyValue * list string) :=
  match items with
  | [] => Return acc
  | (col_name, value) :: rest =>
    match cmap !! col_name with
    | None => Raise InsertOperationFailed
    | Some column_info =>
      if is_auto_increment column_info then prepare cmap (i + 1) rest acc
      else
        match convert_python_to_postgres_value value (type column_info) with
        | Raise _ => Raise InsertOperationFailed
        | Return converted_value =>
          let '(cols, vals, phs) := acc in
          prepare cmap (i + 1) rest
            ((cols ++ [dq +:+ col_name +:+ dq])%list,
             (vals ++ [converted_value])%list,
             (phs ++ ["$" +:+ pretty i])%list)
        end
    end
  end.

(** [insert_dynamic_row], up to the call of [conn.fetchrow]: either a
    [TableRowsError] raised before any statement is sent, or the
    statement and its arguments. *)
Definition insert_dynamic_row (db : Catalog) (table_name : string)
    (payload_dict : list (string * PyValue)) : Result TableRowsError InsertStmt :=
  columns <- get_table_columns db table_name ;;
  let cmap := column_map columns in
  match List.find (fun col_name => negb (bool_decide (is_Some (cmap !! col_name))))
                  (map fst payload_dict) with
  | Some col_name => Raise (ColumnDoesNotExist col_name table_name)
  | None =>
    let missing := missing_columns columns payload_dict in
    if negb (bool_decide (missing = ∅)) then Raise (MissingRequiredColumns missing)
    else
      r <- prepare cmap 1 payload_dict ([], [], []) ;;
      let '(cols, vals, phs) := r in
      match cols with
      | [] => Raise NoValidColumns
      | _ => Return {| into := table_name; insert_columns := cols;
                       placeholders := phs; insert_values := vals |}
      end
  end.

End WithBuiltins.

(** The text of [insert_query], without the indentation of the source. *)
Definition insert_query (st : InsertStmt) : string :=
  "INSERT INTO " +:+ dq +:+ into st +:+ dq +:+ " ("
  +:+ Py.join ", " (insert_columns st) +:+ ") VALUES ("
  +:+ Py.join ", " (placeholders st) +:+ ") RETURNING *;".

(** A statement whose parameters are [$1 .. $n] for its [n] arguments:
    what the server needs in order to bind the arguments of
    [conn.fetchrow(insert_query, *insert_values)]. *)
Definition parameters_bound (st : InsertStmt) : bool :=
  bool_decide (placeholders st
               = map (fun i : nat => "$" +:+ pretty (Z.of_nat i))
                     (seq 1 (List.length (insert_values st)))).

(** The column every [SELECT] of [get_table_rows] is ordered by. *)
Definition ORDER_BY : string := "id".

(** [get_table_rows], up to the call of [conn.fetch]: the query text. *)
Definition get_table_rows (db : Catalog) (table_name : string)
    (limit offset : option Z) : Result TableRowsError string :=
  if negb (check_table_exists db table_name) then Raise (TableDoesNotExist table_name)
  else
    let query := "SELECT * FROM " +:+ dq +:+ table_name +:+ dq +:+ " ORDER BY " +:+ ORDER_BY in
    let query := match limit with
                 | Some n => query +:+ " LIMIT " +:+ pretty n
                 | None => query end in
    let query := match offset with
                 | Some n => query +:+ " OFFSET " +:+ pretty n
                 | None => query end in
    Return query.


(** The truthy tokens of the boolean branch, as a list to test
    membership in. *)
Definition truthy_tokens : list string := ["true"; "1"; "yes"; "on"].

(** The primary-key column the catalog reports for a table, if any. *)
Definition primary_key_column (columns : list ColumnInfo) : option string :=
  name <$> List.find is_primary_key columns.

Definition people : list ColumnInfo :=
  [ {| name := "id"; type := "integer"; nullable := false;
       default := Some "nextval('people_id_seq'::regclass)";
       is_primary_key := true; is_unique := false |};
    {| name := "name"; type := "text"; nullable := false; default := None;
       is_primary_key := false; is_unique := false |};
    {| name := "active"; type := "boolean"; nullable := true; default := Some "true";
       is_primary_key := false; is_unique := false |} ].

(** A table whose declared primary key is a text column. *)
Definition tags : list ColumnInfo :=
  [ {| name := "code"; type := "text"; nullable := false; default := None;
       is_primary_key := true; is_unique := false |};
    {| name := "note"; type := "text"; nullable := true; default := None;
       is_primary_key := false; is_unique := false |} ].

Definition tenant_db : Catalog := {[ "people" := people; "tags" := tags ]}.

(** A table keyed by a column that is not called id. *)
Definition events : list ColumnInfo :=
  [ {| name := "event_key"; type := "text"; nullable := false; default := None;
       is_primary_key := true; is_unique := false |};
    {| name := "payload"; type := "jsonb"; nullable := true; default := None;
       is_primary_key := false; is_unique := false |} ].

End TableRows.

(** ** Change fan-out registry *)

Module WebSocketManager.

(** A Python [dict] as the list of its items in insertion order; keys
    are unique. *)
Section Dict.
Context {K V : Type} `{EqDecision K}.

Fixpoint dict_get (k : K) (d : list (K * V)) : option V :=
  match d with
  | [] => None
  | (k', v) :: d' => if decide (k' = k) then Some v else dict_get k d'
  end.

(** [d[k] = v] *)
Fixpoint dict_set (k : K) (v : V) (d : list (K * V)) : list (K * V) :=
  match d with
  | [] => [(k, v)]
  | (k', v') :: d' =>
    if decide (k' = k) then (k, v) :: d' else (k', v') :: dict_set k v d'
  end.

(** [del d[k]] *)
Fixpoint dict_del (k : K) (d : list (K * V)) : list (K * V) :=
  match d with
  | [] => []
  | (k', v') :: d' => if decide (k' = k) then d' else (k', v') :: dict_del k d'
  end.
End Dict.

(** Connections are identified by a number; a user by its id. *)
Abbreviation WebSocket := nat.
Abbreviation Tables := (list (string * gset nat)).

Record State := {
  connections : list (Z * Tables);
  connection_users : gmap nat Z;
  pg_listeners : gset Z
}.

Inductive RuntimeError := DictChangedSizeDuringIteration.

Definition empty : State :=
  {| connections := []; connection_users := ∅; pg_listeners := ∅ |}.

(** [connect]; [listener_started] says whether [_start_pg_listener]
    managed to open its connection. *)
Definition connect (st : State) (websocket : WebSocket) (project_id : Z)
    (table_name : string) (user : Z) (listener_started : bool) : State :=
  let tables := match dict_get project_id (connections st) with
                | Some t => t | None => [] end in
  let subscribers := match dict_get table_name tables with
                     | Some c => c | None => ∅ end in
  let tables := dict_set table_name (subscribers ∪ {[websocket]}) tables in
  {| connections := dict_set project_id tables (connections st);
     connection_users := <[websocket := user]> (connection_users st);
     pg_listeners := if bool_decide (project_id ∈ pg_listeners st) then pg_listeners st
                     else if listener_started then pg_listeners st ∪ {[project_id]}
                     else pg_listeners st |}.

(** The inner loop of [disconnect],
    [for table_name, connections in tables.items()].  [pending] are the
    keys the iterator has not produced yet and [used] the size of the
    dict when the iterator was made; every step of the iterator,
    the one that ends the loop included, first compares the size of the
    dict with [used] and raises when they differ.  The sets are the
    objects held by the dict, so the body reads and writes [tables]. *)
Fixpoint discard_from_tables (websocket : WebSocket) (used : nat)
    (pending : list string) (tables : Tables) : Tables * option RuntimeError :=
  if negb (Nat.eqb (List.length tables) used)
  then (tables, Some DictChangedSizeDuringIteration)
  else
    match pending with
    | [] => (tables, None)
    | table_name :: pending' =>
      match dict_get table_name tables with
      | None => discard_from_tables websocket used pending' tables
      | Some subscribers =>
        let subscribers := subscribers ∖ {[websocket]} in
        let tables := dict_set table_name subscribers tables in
        let tables := if bool_decide (subscribers = ∅)
                      then dict_del table_name tables else tables in
        discard_from_tables websocket used pending' tables
      end
    end.

(** [_stop_pg_listener]; [close_raises] are the projects whose listener
    connection fails to close, which the method logs and swallows. *)
Definition stop_pg_listener (close_raises : gset Z) (project_id : Z)
    (listeners : gset Z) : gset Z :=
  if bool_decide (project_id ∈ listeners) then
    if bool_decide (project_id ∈ close_raises) then listeners
    else listeners ∖ {[project_id]}
  else listeners.

(** The outer loop, [for project_id, tables in self.connections.items()],
    with the same iterator discipline. *)
Fixpoint discard_from_projects (websocket : WebSocket) (close_raises : gset Z)
    (used : nat) (pending : list Z) (conns : list (Z * Tables)) (listeners : gset Z)
    : list (Z * Tables) * gset Z * option RuntimeError :=
  if negb (Nat.eqb (List.length conns) used)
  then (conns, listeners, Some DictChangedSizeDuringIteration)
  else
    match pending with
    | [] => (conns, listeners, None)
    | project_id :: pending' =>
      match dict_get project_id conns with
      | None => discard_from_projects websocket close_raises used pending' conns listeners
      | Some tables =>
        let '(tables, err) :=
          discard_from_tables websocket (List.length tables) (map fst tables) tables in
        let conns := dict_set project_id tables conns in
        match err with
        | Some e => (conns, listeners, Some e)
        | None =>
          match tables with
          | [] =>
            discard_from_projects websocket close_raises used pending'
              (dict_del project_id conns)
              (stop_pg_listener close_raises project_id listeners)
          | _ =>
            discard_from_projects websocket close_raises used pending' conns listeners
          end
        end
      end
    end.

(** [disconnect]: the state it leaves, and the exception it raised, if
    any. *)
Definition disconnect (st : State) (websocket : WebSocket) (close_raises : gset Z)
    : State * option RuntimeError :=
  let users := delete websocket (connection_users st) in
  let '(conns, listeners, err) :=
    discard_from_projects websocket close_raises
      (List.length (connections st)) (map fst (connections st))
      (connections st) (pg_listeners st) in
  ({| connections := conns; connection_users := users; pg_listeners := listeners |},
   err).

(** The (tenant, table) sets a connection belongs to. *)
Definition subscribed (st : State) (websocket : WebSocket) : list (Z * string) :=
  flat_map (fun '(project_id, tables) =>
    flat_map (fun '(table_name, subscribers) =>
      if bool_decide (websocket ∈ (subscribers : gset nat))
      then [(project_id, table_name)] else []) (tables : Tables))
    (connections st).

Definition has_empty_table_set (st : State) : bool :=
  existsb (fun '(_, tables) =>
    existsb (fun '(_, subscribers) => bool_decide ((subscribers : gset nat) = ∅))
            (tables : Tables)) (connections st).

Definition has_empty_tenant_entry (st : State) : bool :=
  existsb (fun '(_, tables) =>
    match (tables : Tables) with [] => true | _ => false end) (connections st).

(** One connection subscribed to the table [orders] of tenants 1 and 2. *)
Definition two_tenants : State :=
  connect (connect empty 1%nat 1 "orders" 7 true) 1%nat 2 "orders" 7 true.

End WebSocketManager.

(** ** Remaining access checks *)

Module Access.
Import Models Rbac.

(** [get_project_with_permission] of [utils/rbac.py] *)
Definition get_project_with_permission (permission : string)
    (project user : Z) (session : Session) : Result HTTPException Project :=
  match projects session !! project with
  | None => Raise {| status_code := 404 |}
  | Some p =>
    match get_user_role user project session with
    | None => Raise {| status_code := 403 |}
    | Some user_role =>
      if negb (has_permission user_role permission) then Raise {| status_code := 403 |}
      else Return p
    end
  end.

(** [get_project_with_membership] *)
Definition get_project_with_membership (project user : Z) (session : Session)
    : Result HTTPException (Project * ProjectRole) :=
  match projects session !! project with
  | None => Raise {| status_code := 404 |}
  | Some p =>
    match get_user_role user project session with
    | None => Raise {| status_code := 403 |}
    | Some user_role => Return (p, user_role)
    end
  end.

Definition require_project_owner := get_project_with_role OWNER.

(** [can_user_access_project] *)
Definition can_user_access_project (user project : Z) (session : Session) : bool :=
  match get_user_role user project session with
  | Some _ => true
  | None => false
  end.

(** The checks [websocket_table_endpoint] of [projects/websocket_router.py]
    runs before it registers the connection; [Raise code] is the close
    code it sends. *)
Definition websocket_gate (project user : Z) (session : Session) : Result Z Project :=
  match projects session !! project with
  | None => Raise 4004
  | Some p =>
    match get_user_role user project session with
    | None => Raise 4003
    | Some user_role =>
      if negb (has_permission user_role "data:read") then Raise 4003
      else if negb (String.eqb (provisioning_status p) "completed") then Raise 4000
      else Return p
    end
  end.

(** The checks of [manual_notify_test]. *)
Definition manual_notify_gate (project user : Z) (session : Session)
    : Result HTTPException unit :=
  match get_user_role user project session with
  | None => Raise {| status_code := 403 |}
  | Some user_role =>
    if negb (has_permission user_role "data:create") then Raise {| status_code := 403 |}
    else Return tt
  end.

(** The read permissions of the table. *)
Definition read_permissions : list string :=
  [ "project:read"; "members:read"; "tables:read"; "data:read"; "files:read";
    "settings:read" ].

(** What the six gates answer to the recorded owner. *)
Definition owner_answer (op : DynamicOp) (p : Project) : Result HTTPException Project :=
  match op with
  | CreateTable | InsertRow | SelectRows =>
    if String.eqb (provisioning_status p) "completed" then Return p
    else Raise {| status_code := 400 |}
  | ListTables | GetSchema | DropTable => Return p
  end.

End Access.

(** ** The shape of generated names *)

Module ProjectNames.

(** The slug before the random suffix is appended. *)
Definition slug_body (name : string) : string :=
  let slug := Py.keep (fun c => Py.is_alpha c || Py.is_digit c || Py.is_space c
                                || Ascii.eqb c "-") (Py.lower name) in
  let slug := Py.sub_runs Py.is_space "-" false (Py.strip slug) in
  Py.sub_runs (fun c => Ascii.eqb c "-") "-" false slug.

Definition all (p : ascii -> bool) (s : string) : bool :=
  forallb p (list_ascii_of_string s).

(** Lowercase letters, digits and the hyphen. *)
Definition is_slug_char (c : ascii) : bool :=
  Py.is_lower c || Py.is_digit c || Ascii.eqb c "-".

(** Lowercase letters, digits and the underscore. *)
Definition is_db_char (c : ascii) : bool :=
  Py.is_lower c || Py.is_digit c || Ascii.eqb c "_".

Definition starts_with_hyphen (s : string) : bool :=
  match s with
  | String c _ => Ascii.eqb c "-"
  | EmptyString => false
  end.

Fixpoint no_double_hyphen (s : string) : bool :=
  match s with
  | EmptyString => true
  | String c s' =>
    negb (Ascii.eqb c "-" && starts_with_hyphen s') && no_double_hyphen s'
  end.

(** What survives the first substitution of [generate_slug]. *)
Definition is_kept (c : ascii) : bool :=
  Py.is_lower c || Py.is_digit c || Py.is_space c || Ascii.eqb c "-".

(** A name whose slug body is long: 55 letters. *)
Definition long_name : string :=
  "aaaaaaaaaaaaaaaaaaaaaaaaaaaaaaaaaaaaaaaaaaaaaaaaaaaaaaa".

End ProjectNames.

(** ** Reading an insert statement *)

Module RowStatements.
Import TableRows.

(** An identifier between double quotes, as the insert loop writes it. *)
Definition quoted (col_name : string) : string := dq +:+ col_name +:+ dq.

(** The placeholder of the [i]-th argument. *)
Definition placeholder (i : Z) : string := "$" +:+ pretty i.

(** The types [convert_python_to_postgres_value] hands to [int] or
    [float]. *)
Definition is_numeric_type (pg_type : string) : bool :=
  in_list pg_type ["integer"; "bigint"; "smallint"]
  || in_list pg_type ["real"; "double precision"; "numeric"; "decimal"].

(** The payload keys the insert loop does not skip. *)
Definition inserted_keys (cmap : gmap string ColumnInfo)
    (payload_dict : list (string * PyValue)) : list string :=
  List.filter (fun col_name =>
                 match cmap !! col_name with
                 | Some column_info => negb (is_auto_increment column_info)
                 | None => false
                 end) (map fst payload_dict).

End RowStatements.

(** ** Reading and publishing to the registry *)

Module Registry.
Import WebSocketManager.

(** [self.connections[project_id][table_name]], empty when either key is
    missing. *)
Definition subscribers (st : State) (project_id : Z) (table_name : string) : gset nat :=
  match dict_get project_id (connections st) with
  | Some tables =>
    match dict_get table_name tables with
    | Some connections => connections
    | None => ∅
    end
  | None => ∅
  end.

(** The connection is the only member of the set. *)
Definition sole (websocket : WebSocket) (connections : gset nat) : bool :=
  bool_decide (connections ∖ {[websocket]} = ∅).

Definition last_subscriber_somewhere (websocket : WebSocket)
    (conns : list (Z * Tables)) : bool :=
  existsb (fun '(_, tables) =>
             existsb (fun '(_, connections) => sole websocket connections)
                     (tables : Tables)) conns.

(** A registry as [connect] builds it: keys are unique, no tenant entry
    is empty and no subscriber set is empty. *)
Definition clean_tables (tables : Tables) : Prop :=
  tables <> [] /\ NoDup (map fst tables)
  /\ Forall (fun '(_, connections) => (connections : gset nat) <> ∅) tables.

Definition clean (conns : list (Z * Tables)) : Prop :=
  NoDup (map fst conns) /\ Forall (fun '(_, tables) => clean_tables tables) conns.

(** What [disconnect] leaves of a registry when it runs to the end. *)
Definition strip (websocket : WebSocket) (tables : Tables) : Tables :=
  map (fun '(table_name, connections) =>
         (table_name, (connections : gset nat) ∖ {[websocket]})) tables.

Definition without (websocket : WebSocket) (conns : list (Z * Tables))
    : list (Z * Tables) :=
  map (fun '(project_id, tables) => (project_id, strip websocket tables)) conns.

(** The clean-up loop of [broadcast_table_update]: [disconnect] for each
    connection whose send failed; the first exception ends the loop. *)
Fixpoint disconnect_all (st : State) (disconnected : list WebSocket)
    (close_raises : gset Z) : State * option RuntimeError :=
  match disconnected with
  | [] => (st, None)
  | websocket :: rest =>
    match disconnect st websocket close_raises with
    | (st', Some e) => (st', Some e)
    | (st', None) => disconnect_all st' rest close_raises
    end
  end.

(** [broadcast_table_update]; [send_fails] are the connections whose
    [send_text] raises.  The result is the state, the connections the
    message was sent to, and the exception that escaped, if any.  The copy
    of the subscriber set is walked in the order of [elements]. *)
Definition broadcast_table_update (st : State) (project_id : Z) (table_name : string)
    (send_fails : gset nat) (close_raises : gset Z)
    : State * list WebSocket * option RuntimeError :=
  match dict_get project_id (connections st) with
  | None => (st, [], None)
  | Some tables =>
    match dict_get table_name tables with
    | None => (st, [], None)
    | Some subscribed_now =>
      let connections := elements subscribed_now in
      let delivered :=
        List.filter (fun websocket => negb (bool_decide (websocket ∈ send_fails)))
                    connections in
      let disconnected :=
        List.filter (fun websocket => bool_decide (websocket ∈ send_fails))
                    connections in
      let '(st', err) := disconnect_all st disconnected close_raises in
      (st', delivered, err)
    end
  end.

(** [get_connection_stats]: the inner loop fills [table_stats] and adds
    up [project_total]. *)
Fixpoint count_tables (items : Tables) (table_stats : list (string * nat))
    (project_total : nat) : list (string * nat) * nat :=
  match items with
  | [] => (table_stats, project_total)
  | (table_name, connections) :: items' =>
    let count := size (connections : gset nat) in
    count_tables items' (dict_set table_name count table_stats) (project_total + count)
  end.

Record ProjectStats := {
  total : nat;
  tables : list (string * nat)
}.

Fixpoint count_projects (items : list (Z * Tables)) (project_stats : list (Z * ProjectStats))
    (total_connections : nat) : list (Z * ProjectStats) * nat :=
  match items with
  | [] => (project_stats, total_connections)
  | (project_id, tables) :: items' =>
    let '(table_stats, project_total) := count_tables tables [] 0 in
    count_projects items'
      (dict_set project_id {| total := project_total; tables := table_stats |}
                project_stats)
      (total_connections + project_total)
  end.

Record Stats := {
  total_connections : nat;
  projects : list (Z * ProjectStats)
}.

Definition get_connection_stats (st : State) : Stats :=
  let '(project_stats, total_connections) := count_projects (connections st) [] 0 in
  {| total_connections := total_connections; projects := project_stats |}.

(** The count the statistics report for one tenant and table, 0 when
    they do not list it. *)
Definition reported (stats : Stats) (project_id : Z) (table_name : string) : nat :=
  match dict_get project_id (projects stats) with
  | Some project =>
    match dict_get table_name (tables project) with
    | Some count => count
    | None => 0
    end
  | None => 0
  end.

(** The number of (connection, table) subscriptions a registry holds. *)
Definition subscriptions_in (tables : Tables) : nat :=
  sum_list_with (fun item => size (snd item)) tables.

Definition subscriptions (conns : list (Z * Tables)) : nat :=
  sum_list_with (fun item => subscriptions_in (snd item)) conns.

(** One call of [connect]. *)
Record Call := {
  call_websocket : WebSocket;
  call_project : Z;
  call_table : string;
  call_user : Z;
  call_listener_started : bool
}.

(** The registry after a sequence of [connect] calls on a fresh manager. *)
Definition connect_all (calls : list Call) : State :=
  fold_left (fun st c =>
               connect st (call_websocket c) (call_project c) (call_table c)
                       (call_user c) (call_listener_started c))
            calls empty.

(** Two clients on the same table. *)
Definition shared_table : State :=
  connect_all
    [ {| call_websocket := 1%nat; call_project := 1; call_table := "orders";
         call_user := 7; call_listener_started := true |};
      {| call_websocket := 2%nat; call_project := 1; call_table := "orders";
         call_user := 8; call_listener_started := true |} ].

End Registry.

(** ** Sample names and columns *)

Module SchemaSamples.
Import TableSchema.

(** A single line break. *)
Definition newline : string := String Py.nl EmptyString.

(** A unique text column. *)
Definition email_text : ColumnSchema :=
  {| name := "email"; type := TEXT; nullable := false; primary_key := false;
     unique := true; default := None; length := None |}.

End SchemaSamples.

(** * Properties *)

(** ** Permission engine *)

Module RbacFacts.
Import Models Rbac.

Lemma owner_resolves (user project : Z) (session : Session) (p : Project) :
  projects session !! project = Some p -> owner_id p = user ->
  get_user_role user project session = Some OWNER.
Proof.
  intros Hp Ho. unfold get_user_role. rewrite Hp.
  by rewrite bool_decide_eq_true_2.
Qed.

Lemma not_owner_resolves (user project : Z) (session : Session) :
  ~ is_owner user project session ->
  get_user_role user project session
  = role <$> head (List.filter (accepted_membership user project) (memberships session)).
Proof.
  intros Hn. unfold get_user_role.
  destruct (projects session !! project) as [p|] eqn:Hp; [|done].
  rewrite bool_decide_eq_false_2; [done|].
  intros Ho. apply Hn. by exists p.
Qed.

Lemma head_filter_none {A} (f : A -> bool) (l : list A) :
  (forall x, In x l -> f x = false) -> head (List.filter f l) = None.
Proof.
  induction l as [|a l IH]; intros Hall; [done|]. simpl.
  rewrite (Hall a) by (by left). apply IH. intros x Hx. apply Hall. by right.
Qed.

Lemma head_filter_some {A} (f : A -> bool) (l : list A) (x : A) :
  In x l -> f x = true ->
  exists y, head (List.filter f l) = Some y /\ In y l /\ f y = true.
Proof.
  induction l as [|a l IH]; intros Hin Hf; [done|]. simpl.
  destruct (f a) eqn:Ha.
  - exists a. split; [done|]. split; [by left|done].
  - destruct Hin as [->|Hin]; [congruence|].
    destruct (IH Hin Hf) as (y & Hy & Hyl & Hfy).
    exists y. split; [done|]. split; [by right|done].
Qed.

(** In the permission table the role gates of the table endpoints and
    the permissions they stand for are the same test. *)
Lemma editor_gate (r : ProjectRole) :
  has_role_or_higher r EDITOR = has_permission r "tables:create"
  /\ has_role_or_higher r EDITOR = has_permission r "tables:delete".
Proof. destruct r; split; vm_compute; reflexivity. Qed.

Lemma viewer_gate (r : ProjectRole) :
  has_role_or_higher r VIEWER = has_permission r "tables:read".
Proof. destruct r; vm_compute; reflexivity. Qed.

Lemma role_gate_iff (required : ProjectRole) (permission : string)
    (project user : Z) (session : Session) (p : Project) :
  (forall r, has_role_or_higher r required = has_permission r permission) ->
  get_project_with_role required project user session = Return p
  <-> projects session !! project = Some p
      /\ exists r, get_user_role user project session = Some r
                   /\ has_permission r permission = true.
Proof.
  intros Hgate. unfold get_project_with_role.
  destruct (projects session !! project) as [q|] eqn:Hq.
  - destruct (get_user_role user project session) as [r|] eqn:Hr.
    + rewrite Hgate. destruct (has_permission r permission) eqn:Hperm.
      * split.
        -- intros [= ->]. split; [done|]. by exists r.
        -- intros [[= ->] _]. done.
      * split; [done|]. intros [_ (r' & [= <-] & Hp')]. congruence.
    + split; [done|]. intros [_ (r' & Hr' & _)]. done.
  - split; [done|]. intros [Hp _]. done.
Qed.

(** C7.  Role resolution returns OWNER for the recorded owner of the
    tenant, whatever the membership rows are and also when there are
    none; for any other user with an accepted membership in the tenant
    it returns the role of an accepted membership of that user in that
    tenant (the role of that row when the accepted rows agree, as they
    do when there is one), and none when every membership of the user in
    the tenant is pending, rejected or expired; and the effective
    permissions of OWNER
    strictly include those of EDITOR, which strictly include those of
    VIEWER. *)
Theorem role_resolution_and_hierarchy :
  (forall user project session p,
      projects session !! project = Some p -> owner_id p = user ->
      get_user_role user project session = Some OWNER
      /\ get_user_role user project
           {| projects := projects session; memberships := [] |} = Some OWNER)
  /\ (forall user project session m,
      ~ is_owner user project session ->
      In m (memberships session) ->
      accepted_membership user project m = true ->
      (exists m', In m' (memberships session)
                  /\ accepted_membership user project m' = true
                  /\ get_user_role user project session = Some (role m'))
      /\ ((forall m', In m' (memberships session) ->
                      accepted_membership user project m' = true -> role m' = role m) ->
          get_user_role user project session = Some (role m)))
  /\ (forall user project session,
      ~ is_owner user project session ->
      (forall m, In m (memberships session) ->
                 user_id m = user -> project_id m = project ->
                 status m <> ACCEPTED) ->
      get_user_role user project session = None)
  /\ get_effective_permissions EDITOR ⊂ get_effective_permissions OWNER
  /\ get_effective_permissions VIEWER ⊂ get_effective_permissions EDITOR.
Proof.
  split; [|split; [|split; [|split]]].
  - intros user project session p Hp Ho. split.
    + by apply (owner_resolves _ _ _ p).
    + by apply (owner_resolves _ _ _ p).
  - intros user project session m Hn Hin Hacc.
    rewrite not_owner_resolves by done.
    destruct (head_filter_some _ _ _ Hin Hacc) as (y & -> & Hyl & Hfy).
    split.
    + by exists y.
    + intros Hagree. simpl. f_equal. by apply Hagree.
  - intros user project session Hn Hall.
    rewrite not_owner_resolves by done.
    rewrite head_filter_none; [done|].
    intros m Hin. unfold accepted_membership.
    destruct (bool_decide (user_id m = user)) eqn:Hu; [|done].
    destruct (bool_decide (project_id m = project)) eqn:Hpj; [|done].
    apply bool_decide_eq_true_1 in Hu. apply bool_decide_eq_true_1 in Hpj.
    simpl. apply bool_decide_eq_false_2. by apply Hall.
  - compute_done.
  - compute_done.
Qed.

Lemma role_resolution_and_hierarchy_witness :
  get_user_role 10 1 {| projects := {[ 1 := acme ]}; memberships := [] |} = Some OWNER
  /\ get_user_role 20 1 acme_session = Some EDITOR
  /\ get_user_role 30 1 acme_session = None
  /\ get_user_role 40 1 acme_session = None.
Proof.
  destruct role_resolution_and_hierarchy as (Hown & Hacc & Hnone & _).
  assert (Hno : forall u, u <> 10 -> ~ is_owner u 1 acme_session).
  { intros u Hu (p & Hp & Ho). vm_compute in Hp. injection Hp as <-.
    simpl in Ho. congruence. }
  split; [|split; [|split]].
  - apply (Hown 10 1 acme_session acme); reflexivity.
  - refine (proj2 (Hacc 20 1 acme_session
             {| project_id := 1; user_id := 20; role := EDITOR; status := ACCEPTED |}
             _ _ _) _).
    + by apply Hno.
    + simpl. tauto.
    + reflexivity.
    + intros m' [<-|[<-|[<-|[]]]]; vm_compute; congruence.
  - apply Hnone; [by apply Hno|].
    intros m [<-|[<-|[<-|[]]]]; simpl; congruence.
  - apply Hnone; [by apply Hno|].
    intros m [<-|[<-|[<-|[]]]]; simpl; congruence.
Defined.

(** C1, as stated, fails: user 20 resolves to EDITOR, EDITOR holds
    [data:create] and [data:read], and both row endpoints answer 403. *)
Lemma editor_is_denied_row_access :
  get_user_role 20 1 acme_session = Some EDITOR
  /\ has_permission EDITOR (required_permission InsertRow) = true
  /\ has_permission EDITOR (required_permission SelectRows) = true
  /\ authorize InsertRow 1 20 acme_session = Raise {| status_code := 403 |}
  /\ authorize SelectRows 1 20 acme_session = Raise {| status_code := 403 |}.
Proof. repeat split; vm_compute; reflexivity. Qed.

(** C1, amended.  The four Schema Engine endpoints let a request through
    exactly when the tenant exists and the user's resolved role holds
    the endpoint's table permission (table creation also needs a
    completed tenant); the two row endpoints let it through exactly when
    the tenant exists, is completed, and the user is its recorded
    owner. *)
Theorem authorize_spec (op : DynamicOp) (project user : Z) (session : Session)
    (p : Project) :
  authorize op project user session = Return p
  <-> projects session !! project = Some p
      /\ match op with
         | CreateTable =>
             permission_engine_allows op project user session
             /\ provisioning_status p = "completed"
         | ListTables | GetSchema | DropTable =>
             permission_engine_allows op project user session
         | InsertRow | SelectRows =>
             owner_id p = user /\ provisioning_status p = "completed"
         end.
Proof.
  assert (Hrows :
    get_project_and_verify_access project user session = Return p
    <-> projects session !! project = Some p
        /\ owner_id p = user /\ provisioning_status p = "completed").
  { unfold get_project_and_verify_access.
    destruct (projects session !! project) as [q|] eqn:Hq.
    - destruct (bool_decide (owner_id q = user)) eqn:Ho; simpl.
      + apply bool_decide_eq_true_1 in Ho.
        destruct (String.eqb (provisioning_status q) "completed") eqn:Hs; simpl.
        * apply String.eqb_eq in Hs. split.
          -- intros [= ->]. done.
          -- intros ([= ->] & _). done.
        * apply String.eqb_neq in Hs. split; [done|].
          intros ([= ->] & _ & Hc). done.
      + apply bool_decide_eq_false_1 in Ho. split; [done|].
        intros ([= ->] & Hc & _). done.
    - split; [done|]. intros (Hc & _). done. }
  destruct op; simpl; try exact Hrows.
  - unfold require_project_editor, permission_engine_allows. simpl.
    pose proof (role_gate_iff EDITOR "tables:create" project user session) as Hg.
    destruct (get_project_with_role EDITOR project user session) as [e|q] eqn:Hq; simpl.
    + split; [done|]. intros (Hp & Hperm & _).
      assert (Raise e = Return p) as Hc; [|done].
      apply Hg; [intros r; apply editor_gate|done].
    + assert (Hq' : projects session !! project = Some q
                    /\ exists r, get_user_role user project session = Some r
                                 /\ has_permission r "tables:create" = true).
      { apply Hg; [intros r; apply editor_gate|done]. }
      destruct Hq' as (Hpq & Hperm).
      destruct (String.eqb (provisioning_status q) "completed") eqn:Hs; simpl.
      * apply String.eqb_eq in Hs. split.
        -- intros [= ->]. done.
        -- intros (Hp & _). congruence.
      * apply String.eqb_neq in Hs. split; [done|].
        intros (Hp & _ & Hc). congruence.
  - apply role_gate_iff. apply viewer_gate.
  - apply role_gate_iff. apply viewer_gate.
  - apply role_gate_iff. intros r. apply editor_gate.
Qed.

End RbacFacts.

(** ** Project names *)

Module ProjectsFacts.
Import Models Projects.







(** The task, by what it leaves in the table. *)
Lemma provision_result (project : Z) (project_name : string) (session : Session)
    (env : Env) :
  provision_project_infrastructure project project_name session env
  = match projects session !! project with
    | None => Return session
    | Some p =>
      if renames project project_name session env
      then let '(slug', db_name', bucket_name') :=
             generate_project_names project_name (uuid_hex8 env) in
           Return (store session project (set_infrastructure p slug' db_name' bucket_name'))
      else if status_commit_ok env
           then Return (store session project (set_status p "failed"))
           else Raise CommitRefused
    end.
Proof.
  unfold provision_project_infrastructure, provision_project, renames, mark_failed.
  destruct (generate_project_names project_name (uuid_hex8 env)) as [[s d] b].
  destruct (projects session !! project) as [p|];
    destruct (postgres_ok env), (minio_ok env), (commit_ok env); simpl; reflexivity.
Qed.


Lemma create_project_returns (session : Session) (project_in : ProjectCreate)
    (user : Z) (hex8 : string) (ok : bool) (session' : Session) (q : Project) :
  create_project session project_in user hex8 ok = Return (session', q) ->
  session' = store session (fresh_id (projects session)) q
  /\ p_id q = fresh_id (projects session)
  /\ name q = pc_name project_in
  /\ owner_id q = user
  /\ provisioning_status q = "pending"
  /\ slug q = generate_slug (pc_name project_in) hex8
  /\ db_name q = "project_" +:+ Py.replace "-" "_" (slug q) +:+ "_db"
  /\ bucket_name q = "project-" +:+ slug q +:+ "-bucket"
  /\ quotas_fit q = true.
Proof.
  unfold create_project.
  match goal with |- context [quotas_fit ?r] => destruct (quotas_fit r) eqn:Hfit end;
    [|by rewrite andb_false_r].
  destruct (ok && true && _); [|done]. intros [= <- <-]. by repeat split.
Qed.




End ProjectsFacts.

(** ** Name validation and synthesized keys *)

Module TableSchemaFacts.
Import TableSchema.

Ltac by_cases_on_char c :=
  destruct c as [[] [] [] [] [] [] [] []]; vm_compute; reflexivity.

Lemma lower_char_word_start (c : ascii) :
  Py.is_word_start (Py.lower_char c) = Py.is_word_start c.
Proof. by_cases_on_char c. Qed.

Lemma lower_char_word (c : ascii) : Py.is_word (Py.lower_char c) = Py.is_word c.
Proof. by_cases_on_char c. Qed.

Lemma lower_char_nl (c : ascii) :
  Ascii.eqb (Py.lower_char c) Py.nl = Ascii.eqb c Py.nl.
Proof. by_cases_on_char c. Qed.

Lemma lower_is_empty (s : string) :
  String.eqb (Py.lower s) EmptyString = String.eqb s EmptyString.
Proof. by destruct s. Qed.

Lemma match_word_tail_lower (s : string) :
  Py.match_word_tail (Py.lower s) = Py.match_word_tail s.
Proof.
  induction s as [|c s IH]; simpl; [done|].
  by rewrite lower_char_word, lower_char_nl, lower_is_empty, IH.
Qed.

(** The pattern does not tell a name from its lowercase form. *)
Lemma re_match_lower (s : string) :
  Py.re_match_identifier (Py.lower s) = Py.re_match_identifier s.
Proof.
  destruct s as [|c s]; simpl; [done|].
  by rewrite lower_char_word_start, match_word_tail_lower.
Qed.

Lemma match_word_tail_strict (s : string) :
  has_newline s = false ->
  Py.match_word_tail s = forallb Py.is_word (list_ascii_of_string s).
Proof.
  unfold has_newline. induction s as [|c s IH]; [done|].
  cbn [list_ascii_of_string existsb forallb Py.match_word_tail].
  intros Hnl. apply orb_false_iff in Hnl as [Hc Hs].
  destruct (Py.is_word c); [by apply IH|].
  rewrite Ascii.eqb_sym in Hc. by rewrite Hc.
Qed.

(** On names without a line break the pattern is the identifier grammar. *)
Lemma re_match_strict (s : string) :
  has_newline s = false -> Py.re_match_identifier s = is_identifier s.
Proof.
  destruct s as [|c s]; [done|]. unfold has_newline.
  cbn [list_ascii_of_string existsb Py.re_match_identifier is_identifier].
  intros Hnl. apply orb_false_iff in Hnl as [_ Hs].
  by rewrite match_word_tail_strict.
Qed.

Lemma validate_column_name_lower (v v' : string) :
  Py.lower v' = Py.lower v ->
  raised (validate_column_name v') <-> raised (validate_column_name v).
Proof.
  intros Hl. unfold validate_column_name.
  rewrite <- (re_match_lower v), <- (re_match_lower v'), Hl. done.
Qed.

Lemma validate_table_name_lower (v v' : string) :
  Py.lower v' = Py.lower v ->
  raised (validate_table_name v') <-> raised (validate_table_name v).
Proof.
  intros Hl. unfold validate_table_name.
  rewrite <- (re_match_lower v), <- (re_match_lower v'), Hl. done.
Qed.

Lemma validate_with (reserved : gset string) (e : ValueError) (v w : string) :
  has_newline v = false ->
  (if negb (Py.re_match_identifier v) then Raise BadIdentifier
   else if bool_decide (Py.lower v ∈ reserved) then Raise e
   else Return (Py.lower v)) = Return w
  <-> is_identifier v = true /\ (Py.lower v ∉ reserved) /\ w = Py.lower v.
Proof.
  intros Hnl. rewrite (re_match_strict v Hnl).
  destruct (is_identifier v); simpl.
  - destruct (bool_decide (Py.lower v ∈ reserved)) eqn:Hr.
    + apply bool_decide_eq_true_1 in Hr. split; [done|]. intros (_ & Hn & _). done.
    + apply bool_decide_eq_false_1 in Hr. split.
      * intros [= <-]. done.
      * intros (_ & _ & ->). done.
  - split; [done|]. intros (Hc & _). done.
Qed.

(** C5 fails on the code for table names.  The column-name field
    refuses every word of the reserved keyword list; the table-name
    field, whose validator tests its own list of reserved names alone,
    lets every one of them through but [user], in any case of letters it
    is written in, and also the three baseline tables of a tenant
    database. *)
Theorem table_name_field_accepts_keywords :
  (forall k, k ∈ reserved_keywords ->
     column_name_field k = Raise (ValidatorRaised ReservedKeyword)
     /\ (k <> "user" -> table_name_field k = Return k))
  /\ column_name_field "SELECT" = Raise (ValidatorRaised ReservedKeyword)
  /\ table_name_field "SELECT" = Return "select"
  /\ system_tables = ["items"; "project_metadata"; "files"]
  /\ (forall t, In t system_tables -> table_name_field t = Return t).
Proof.
  split; [|split; [|split; [|split]]].
  - intros k Hk. unfold reserved_keywords in Hk.
    apply elem_of_list_to_set, list_elem_of_In in Hk. simpl in Hk.
    repeat (destruct Hk as [<-|Hk];
            [split; [vm_compute; reflexivity
                    |intros Hne; first [by destruct Hne | vm_compute; reflexivity]]|]).
    done.
  - vm_compute. reflexivity.
  - vm_compute. reflexivity.
  - reflexivity.
  - intros t Ht. simpl in Ht.
    repeat (destruct Ht as [<-|Ht]; [vm_compute; reflexivity|]). done.
Qed.

(** A list with no primary key is returned with [id_column] in front,
    whatever its columns are called. *)
Lemma no_primary_key_prepends (v r : list ColumnSchema) :
  List.filter primary_key v = [] ->
  validate_columns v = Return r -> r = id_column :: v.
Proof.
  intros Hpk. unfold validate_columns. destruct v as [|c v]; [done|].
  rewrite Hpk. simpl List.length.
  destruct (negb _); [done|]. simpl. by intros [= <-].
Qed.

Lemma synthesized_id_clashes (v r : list ColumnSchema) :
  List.filter primary_key v = [] ->
  In "id" (map name v) ->
  validate_columns v = Return r -> ~ NoDup (map name r).
Proof.
  intros Hpk Hin Hv. rewrite (no_primary_key_prepends v r Hpk Hv). simpl.
  intros Hnd. apply NoDup_cons in Hnd as [Hni _]. apply Hni.
  by apply list_elem_of_In.
Qed.

(** C9 fails on the code: a single non-key column named id is a valid
    column, passes the duplicate check, and comes back behind the
    synthesized key of the same name; the two column clauses of the
    CREATE TABLE statement then both define id. *)
Theorem synthesized_id_duplicates_declared_id :
  validate_column_name "id" = Return "id"
  /\ validate_columns [id_text] = Return [id_column; id_text]
  /\ map name [id_column; id_text] = ["id"; "id"]
  /\ ~ NoDup (map name [id_column; id_text])
  /\ column_definitions [id_column; id_text]
     = [ dq +:+ "id" +:+ dq +:+ " SERIAL NOT NULL PRIMARY KEY";
         dq +:+ "id" +:+ dq +:+ " TEXT" ].
Proof.
  split; [vm_compute; reflexivity|].
  split; [vm_compute; reflexivity|].
  split; [reflexivity|].
  split; [|vm_compute; reflexivity].
  apply (synthesized_id_clashes [id_text]).
  - reflexivity.
  - simpl. tauto.
  - vm_compute. reflexivity.
Qed.

End TableSchemaFacts.

(** ** Dynamic rows *)

Module TableRowsFacts.
Import TableRows.

Lemma in_list_spec (s : string) (l : list string) : in_list s l = true <-> In s l.
Proof.
  unfold in_list. rewrite existsb_exists. split.
  - intros (x & Hx & Heq). apply String.eqb_eq in Heq. by subst.
  - intros Hin. exists s. split; [done|]. apply String.eqb_refl.
Qed.

Lemma in_list_decide (s : string) (l : list string) :
  in_list s l = bool_decide (s ∈ l).
Proof.
  destruct (in_list s l) eqn:Hin.
  - symmetry. apply bool_decide_eq_true_2, list_elem_of_In. by apply in_list_spec.
  - symmetry. apply bool_decide_eq_false_2. intros Hel.
    apply list_elem_of_In, in_list_spec in Hel. congruence.
Qed.

(** C10.  On a boolean column the coercion always returns: null for
    null, the value itself for a boolean, and for any other value the
    boolean that says whether the lowercase of its string form is one of
    true, 1, yes, on; so a token outside that list becomes false. *)
Theorem boolean_coercion_total `{PyBuiltins} (value : PyValue) :
  convert_python_to_postgres_value value "boolean"
  = Return match value with
           | PyNone => PyNone
           | PyBool b => PyBool b
           | _ => PyBool (bool_decide (Py.lower (py_str value) ∈ truthy_tokens))
           end
  /\ convert_python_to_postgres_value (PyStr "YES") "boolean" = Return (PyBool true)
  /\ convert_python_to_postgres_value (PyInt 1) "boolean" = Return (PyBool true)
  /\ convert_python_to_postgres_value (PyStr "maybe") "boolean" = Return (PyBool false)
  /\ convert_python_to_postgres_value (PyInt 0) "boolean" = Return (PyBool false).
Proof.
  split; [|repeat split; vm_compute; reflexivity].
  destruct value as [|b|z|f|s|l|d]; try reflexivity;
    rewrite <- in_list_decide;
    unfold convert_python_to_postgres_value, truthy_tokens;
    match goal with
    | |- context [in_list (Py.lower ?x) ?l] => generalize (in_list (Py.lower x) l)
    end;
    intros t; vm_compute; reflexivity.
Qed.

Lemma column_map_acc (columns : list ColumnInfo) (m : gmap string ColumnInfo)
    (k : string) :
  is_Some (fold_left (fun m col => <[name col := col]> m) columns m !! k)
  <-> In k (map name columns) \/ is_Some (m !! k).
Proof.
  revert m. induction columns as [|col columns IH]; intros m; simpl.
  - tauto.
  - rewrite IH. destruct (decide (name col = k)) as [->|Hne].
    + rewrite lookup_insert_eq. split; [|eauto]. intros _. left. by left.
    + rewrite lookup_insert_ne by done. tauto.
Qed.

Lemma column_map_known (columns : list ColumnInfo) (k : string) :
  is_Some (column_map columns !! k) <-> In k (map name columns).
Proof.
  unfold column_map. rewrite column_map_acc, lookup_empty.
  split; [|tauto]. intros [Hin|[x Hx]]; [done|discriminate].
Qed.







(** C3 fails on the code: with the auto-increment key ahead of another
    column in the payload, the key is left out of the column list but the
    placeholder of the next column keeps the number counted with it, so
    the statement names parameter 2 and carries one argument; without the
    key, or with the key last, the same row gets parameter 1. *)
Theorem skipped_key_shifts_placeholders `{PyBuiltins} :
  insert_dynamic_row tenant_db "people" [("id", PyInt 5); ("name", PyStr "Ada")]
  = Return {| into := "people"; insert_columns := [dq +:+ "name" +:+ dq];
              placeholders := ["$2"]; insert_values := [PyStr "Ada"] |}
  /\ parameters_bound
       {| into := "people"; insert_columns := [dq +:+ "name" +:+ dq];
          placeholders := ["$2"]; insert_values := [PyStr "Ada"] |} = false
  /\ insert_dynamic_row tenant_db "people" [("name", PyStr "Ada")]
     = Return {| into := "people"; insert_columns := [dq +:+ "name" +:+ dq];
                 placeholders := ["$1"]; insert_values := [PyStr "Ada"] |}
  /\ insert_dynamic_row tenant_db "people" [("name", PyStr "Ada"); ("id", PyInt 5)]
     = Return {| into := "people"; insert_columns := [dq +:+ "name" +:+ dq];
                 placeholders := ["$1"]; insert_values := [PyStr "Ada"] |}
  /\ parameters_bound
       {| into := "people"; insert_columns := [dq +:+ "name" +:+ dq];
          placeholders := ["$1"]; insert_values := [PyStr "Ada"] |} = true.
Proof. repeat split; vm_compute; reflexivity. Qed.

Lemma prefix_of_refl (a : string) : Py.prefix_of a a = true.
Proof. induction a as [|c a IH]; simpl; [done|]. by rewrite Ascii.eqb_refl. Qed.

Lemma prefix_of_app_r (a s t : string) :
  Py.prefix_of a s = true -> Py.prefix_of a (s +:+ t) = true.
Proof.
  revert s. induction a as [|c a IH]; intros s; simpl; [by destruct (s +:+ t)|].
  destruct s as [|d s]; simpl; [done|].
  intros Hp. apply andb_true_iff in Hp as [-> Hp]. by apply IH.
Qed.

(** C6 fails on the code: every query is ordered by the literal column
    [id]; for a table whose primary key is [event_key] and that has no
    column [id], the query names a column the table does not have. *)
Theorem select_orders_by_literal_id :
  (forall db table_name limit offset query,
      get_table_rows db table_name limit offset = Return query ->
      Py.prefix_of ("SELECT * FROM " +:+ dq +:+ table_name +:+ dq +:+ " ORDER BY id") query
      = true)
  /\ get_table_rows {[ "events" := events ]} "events" (Some 10) None
     = Return ("SELECT * FROM " +:+ dq +:+ "events" +:+ dq +:+ " ORDER BY id LIMIT 10")
  /\ primary_key_column events = Some "event_key"
  /\ ~ In ORDER_BY (map name events).
Proof.
  split; [|split; [|split]].
  - intros db table_name limit offset query. unfold get_table_rows.
    destruct (check_table_exists db table_name); [|done]. simpl.
    intros [= <-].
    assert (Hplain : Py.prefix_of
              ("SELECT * FROM " +:+ dq +:+ table_name +:+ dq +:+ " ORDER BY id")
              ("SELECT * FROM " +:+ dq +:+ table_name +:+ dq +:+ " ORDER BY " +:+ ORDER_BY)
              = true) by exact (prefix_of_refl _).
    destruct limit as [n|], offset as [m|]; simpl.
    + apply prefix_of_app_r. by apply prefix_of_app_r.
    + by apply prefix_of_app_r.
    + by apply prefix_of_app_r.
    + done.
  - vm_compute. reflexivity.
  - reflexivity.
  - simpl. intros [Hc|[Hc|[]]]; discriminate.
Qed.

End TableRowsFacts.

(** ** Disconnecting a subscriber *)

Module WebSocketManagerFacts.
Import WebSocketManager.

Lemma sole_subscriber_leaves (websocket : WebSocket) :
  ((∅ ∪ {[websocket]}) ∖ {[websocket]} : gset nat) = ∅.
Proof.
  apply set_eq. intros x.
  rewrite elem_of_difference, elem_of_union, elem_of_singleton, elem_of_empty. tauto.
Qed.

(** C8 fails on the code: deleting an emptied entry inside the loop over
    the same dict makes the next step of the iterator raise.  A client
    that connects and then disconnects already meets it; and with a
    connection subscribed in two tenants the call raises after the first,
    leaving the first tenant with an empty entry and the connection
    still subscribed in the second. *)
Theorem disconnect_raises_when_a_set_empties :
  (forall websocket project_id table_name user started close_raises,
      snd (disconnect (connect empty websocket project_id table_name user started)
                      websocket close_raises)
      = Some DictChangedSizeDuringIteration)
  /\ snd (disconnect two_tenants 1%nat ∅) = Some DictChangedSizeDuringIteration
  /\ connections (fst (disconnect two_tenants 1%nat ∅))
     = [(1, []); (2, [("orders", {[ 1%nat ]})])]
  /\ subscribed (fst (disconnect two_tenants 1%nat ∅)) 1%nat = [(2, "orders")]
  /\ has_empty_tenant_entry (fst (disconnect two_tenants 1%nat ∅)) = true.
Proof.
  split; [|repeat split; vm_compute; reflexivity].
  intros websocket project_id table_name user started close_raises.
  unfold disconnect, connect, empty. simpl.
  rewrite !decide_True by done. simpl.
  rewrite !decide_True by done.
  rewrite sole_subscriber_leaves.
  rewrite bool_decide_eq_true_2 by done. simpl.
  rewrite !decide_True by done. reflexivity.
Qed.

End WebSocketManagerFacts.


(** ** Role order and the remaining gates *)

Module AccessFacts.
Import Models Rbac Access.

Lemma role_order_is_inclusion (r r' : ProjectRole) :
  has_role_or_higher r r' = bool_decide (PERMISSIONS r' ⊆ PERMISSIONS r).
Proof. destruct r, r'; vm_compute; reflexivity. Qed.

(** X1.  The role order is the inclusion of the permission sets: one role
    is equal to or higher than another exactly when it holds every
    permission of the other; the order is total and antisymmetric. *)
Theorem role_order_matches_permissions (r r' : ProjectRole) :
  (has_role_or_higher r r' = true <-> PERMISSIONS r' ⊆ PERMISSIONS r)
  /\ (has_role_or_higher r r' = true \/ has_role_or_higher r' r = true)
  /\ (has_role_or_higher r r' = true /\ has_role_or_higher r' r = true <-> r = r').
Proof.
  split; [|split].
  - rewrite role_order_is_inclusion. apply bool_decide_eq_true.
  - destruct r, r'; vm_compute; tauto.
  - destruct r, r'; vm_compute; split; try tauto; try discriminate;
      intros [? ?]; discriminate.
Qed.

Lemma nested_union (A B C : gset string) :
  B ⊆ A -> C ⊆ B -> ∅ ∪ A ∪ B ∪ C = A /\ ∅ ∪ B ∪ C = B /\ ∅ ∪ C = C.
Proof.
  intros HBA HCB. rewrite !union_empty_l_L.
  rewrite (union_comm_L A B), (subseteq_union_1_L B A HBA).
  rewrite (union_comm_L B C), (subseteq_union_1_L C B HCB).
  rewrite (union_comm_L A C), (subseteq_union_1_L C A); [done|by transitivity B].
Qed.

Lemma effective_is_direct (r : ProjectRole) :
  get_effective_permissions r = PERMISSIONS r.
Proof.
  destruct (nested_union (PERMISSIONS OWNER) (PERMISSIONS EDITOR) (PERMISSIONS VIEWER))
    as (Ho & He & Hv).
  - apply (bool_decide_eq_true_1 (PERMISSIONS EDITOR ⊆ PERMISSIONS OWNER)).
    by rewrite <- role_order_is_inclusion.
  - apply (bool_decide_eq_true_1 (PERMISSIONS VIEWER ⊆ PERMISSIONS EDITOR)).
    by rewrite <- role_order_is_inclusion.
  - destruct r; unfold get_effective_permissions;
      cbn [ROLE_HIERARCHY fold_left]; done.
Qed.

Lemma every_role_reads (r : ProjectRole) (permission : string) :
  In permission read_permissions -> has_permission r permission = true.
Proof.
  intros Hin. destruct r; simpl in Hin;
    repeat (destruct Hin as [<-|Hin]; [vm_compute; reflexivity|]); done.
Qed.

(** X2.  Inheritance adds nothing to the permission table: the effective
    permissions of a role are its own entry, so [has_permission] decides
    membership in the effective set, and a role that is equal to or
    higher than another has every effective permission of the other. *)
Theorem effective_permissions_are_the_table (r : ProjectRole) :
  get_effective_permissions r = PERMISSIONS r
  /\ (forall permission,
        permission ∈ get_effective_permissions r <-> has_permission r permission = true)
  /\ (forall r', has_role_or_higher r r' = true ->
                 get_effective_permissions r' ⊆ get_effective_permissions r).
Proof.
  split; [apply effective_is_direct|]. split.
  - intros permission. rewrite effective_is_direct. unfold has_permission.
    symmetry. apply bool_decide_eq_true.
  - intros r' Hge. rewrite !effective_is_direct.
    rewrite role_order_is_inclusion in Hge. by apply bool_decide_eq_true in Hge.
Qed.

Lemma can_access_iff (user project : Z) (session : Session) :
  can_user_access_project user project session = true
  <-> exists r, get_user_role user project session = Some r.
Proof.
  unfold can_user_access_project.
  destruct (get_user_role user project session) as [r|]; split; try done.
  - intros _. by exists r.
  - intros [r Hr]. done.
Qed.

(** X3.  For a read permission the four ways of asking "may this user see
    the project" agree: [get_project_with_permission],
    [require_project_viewer] and [get_project_with_membership] return
    the project exactly when it exists and [can_user_access_project]
    holds; and they answer 404 exactly when the project does not exist. *)
Theorem read_access_checks_agree (permission : string) (project user : Z)
    (session : Session) (p : Project) :
  In permission read_permissions ->
  (get_project_with_permission permission project user session = Return p
   <-> projects session !! project = Some p
       /\ can_user_access_project user project session = true)
  /\ (require_project_viewer project user session = Return p
      <-> projects session !! project = Some p
          /\ can_user_access_project user project session = true)
  /\ ((exists r, get_project_with_membership project user session = Return (p, r))
      <-> projects session !! project = Some p
          /\ can_user_access_project user project session = true)
  /\ (get_project_with_permission permission project user session
      = Raise {| status_code := 404 |}
      <-> projects session !! project = None).
Proof.
  intros Hread.
  unfold get_project_with_permission, require_project_viewer, get_project_with_role,
    get_project_with_membership, can_user_access_project.
  destruct (projects session !! project) as [q|] eqn:Hq.
  - destruct (get_user_role user project session) as [r|] eqn:Hr.
    + rewrite (every_role_reads r permission Hread). simpl.
      assert (has_role_or_higher r VIEWER = true) as -> by (by destruct r).
      split; [|split; [|split]].
      * split; [by intros [= ->]|by intros [[= ->] _]].
      * split; [by intros [= ->]|by intros [[= ->] _]].
      * split; [by intros [r' [= -> _]]|]. intros [[= ->] _]. by exists r.
      * done.
    + split; [|split; [|split]].
      * split; [done|by intros [_ ?]].
      * split; [done|by intros [_ ?]].
      * split; [by intros [r' ?]|by intros [_ ?]].
      * done.
  - split; [|split; [|split]].
    + split; [done|by intros [? _]].
    + split; [done|by intros [? _]].
    + split; [by intros [r' ?]|by intros [? _]].
    + done.
Qed.

Lemma read_access_checks_agree_witness :
  get_project_with_permission "data:read" 1 20 acme_session = Return acme
  /\ require_project_viewer 1 20 acme_session = Return acme
  /\ get_project_with_permission "data:read" 2 20 acme_session
     = Raise {| status_code := 404 |}.
Proof.
  destruct (read_access_checks_agree "data:read" 1 20 acme_session acme
              ltac:(simpl; tauto)) as (Hperm & Hviewer & _ & _).
  destruct (read_access_checks_agree "data:read" 2 20 acme_session acme
              ltac:(simpl; tauto)) as (_ & _ & _ & Hmissing).
  split; [|split].
  - apply Hperm. split; reflexivity.
  - apply Hviewer. split; reflexivity.
  - apply Hmissing. reflexivity.
Defined.

(** X4.  A live subscription is accepted exactly when the project exists,
    the user resolves to some role and the project is completed; the
    [data:read] test never decides, since every role holds it.  The close
    codes are 4004 for an unknown project, 4003 for a user without role
    and 4000 for a project that is not completed. *)
Theorem websocket_gate_spec (project user : Z) (session : Session) :
  (forall p, websocket_gate project user session = Return p
             <-> projects session !! project = Some p
                 /\ can_user_access_project user project session = true
                 /\ provisioning_status p = "completed")
  /\ (websocket_gate project user session = Raise 4004
      <-> projects session !! project = None)
  /\ (websocket_gate project user session = Raise 4003
      <-> is_Some (projects session !! project)
          /\ can_user_access_project user project session = false)
  /\ (websocket_gate project user session = Raise 4000
      <-> exists p, projects session !! project = Some p
                    /\ can_user_access_project user project session = true
                    /\ provisioning_status p <> "completed").
Proof.
  unfold websocket_gate, can_user_access_project.
  destruct (projects session !! project) as [q|] eqn:Hq.
  - destruct (get_user_role user project session) as [r|] eqn:Hr.
    + rewrite (every_role_reads r "data:read") by (simpl; tauto). simpl.
      destruct (String.eqb (provisioning_status q) "completed") eqn:Hs; simpl.
      * apply String.eqb_eq in Hs. split; [|split; [|split]].
        -- intros p. split; [by intros [= <-]|by intros ([= <-] & _)].
        -- split; done.
        -- split; [done|by intros [_ ?]].
        -- split; [done|]. intros (p & [= <-] & _ & Hne). done.
      * apply String.eqb_neq in Hs. split; [|split; [|split]].
        -- intros p. split; [done|]. intros ([= <-] & _ & ?). done.
        -- split; done.
        -- split; [done|by intros [_ ?]].
        -- split; [|done]. intros _. by exists q.
    + split; [|split; [|split]].
      * intros p. split; [done|]. intros (_ & ? & _). done.
      * split; done.
      * split; [|done]. intros _. split; [by eexists|done].
      * split; [done|]. intros (p & _ & ? & _). done.
  - split; [|split; [|split]].
    + intros p. split; [done|]. intros (? & _). done.
    + split; done.
    + split; [done|]. intros ([x ?] & _). done.
    + split; [done|]. intros (p & ? & _). done.
Qed.

(** X5.  A member who is not the owner can subscribe to the live changes
    of a table and cannot read its rows: whenever the subscription gate
    lets such a user in, the row listing answers 403, and so does the
    row insert. *)
Theorem member_subscribes_but_cannot_select (project user : Z) (session : Session)
    (p : Project) :
  websocket_gate project user session = Return p ->
  owner_id p <> user ->
  authorize SelectRows project user session = Raise {| status_code := 403 |}
  /\ authorize InsertRow project user session = Raise {| status_code := 403 |}.
Proof.
  intros Hgate Hne.
  assert (projects session !! project = Some p) as Hp.
  { unfold websocket_gate in Hgate.
    destruct (projects session !! project) as [q|]; [|done].
    destruct (get_user_role user project session); [|done].
    destruct (negb _); [done|]. destruct (negb _); [done|]. by injection Hgate as ->. }
  simpl. unfold get_project_and_verify_access. rewrite Hp.
  rewrite bool_decide_eq_false_2 by done. done.
Qed.

Lemma member_subscribes_but_cannot_select_witness :
  authorize SelectRows 1 20 acme_session = Raise {| status_code := 403 |}
  /\ authorize InsertRow 1 20 acme_session = Raise {| status_code := 403 |}.
Proof.
  apply (member_subscribes_but_cannot_select 1 20 acme_session acme).
  - reflexivity.
  - simpl. lia.
Defined.

End AccessFacts.


(** ** Generated names *)

Module ProjectNamesFacts.
Import Models Projects ProjectNames.

Ltac by_cases_on_char c :=
  destruct c as [[] [] [] [] [] [] [] []]; vm_compute; try reflexivity; try discriminate.

Lemma app_nil (b : string) : "" +:+ b = b.
Proof. reflexivity. Qed.

Lemma app_cons (c : ascii) (a b : string) : String c a +:+ b = String c (a +:+ b).
Proof. reflexivity. Qed.

Lemma all_app (p : ascii -> bool) (a b : string) :
  all p (a +:+ b) = all p a && all p b.
Proof.
  unfold all. induction a as [|c a IH]; rewrite ?app_nil, ?app_cons; simpl; [done|].
  by rewrite IH, andb_assoc.
Qed.

Lemma all_rev_app (p : ascii -> bool) (a b : string) :
  all p (String.rev_app a b) = all p a && all p b.
Proof.
  revert b. induction a as [|c a IH]; intros b; simpl; [done|].
  rewrite IH. unfold all. simpl. destruct (p c); simpl.
  - done.
  - by rewrite andb_false_r.
Qed.

Lemma all_rev (p : ascii -> bool) (a : string) : all p (String.rev a) = all p a.
Proof. unfold String.rev. rewrite all_rev_app. unfold all at 2. simpl. apply andb_true_r. Qed.

Lemma all_lstrip (p : ascii -> bool) (a : string) :
  all p a = true -> all p (Py.lstrip a) = true.
Proof.
  unfold all. induction a as [|c a IH]; simpl; [done|].
  intros Hp. apply andb_true_iff in Hp as [Hc Ha].
  destruct (Py.is_space c); [by apply IH|]. simpl. by rewrite Hc, Ha.
Qed.

Lemma all_strip (p : ascii -> bool) (a : string) :
  all p a = true -> all p (Py.strip a) = true.
Proof.
  intros Hp. unfold Py.strip. rewrite all_rev. apply all_lstrip.
  rewrite all_rev. by apply all_lstrip.
Qed.

Lemma all_keep (p q : ascii -> bool) (a : string) :
  (forall c, p c = true -> q c = true) -> all q (Py.keep p a) = true.
Proof.
  intros Hpq. unfold all. induction a as [|c a IH]; simpl; [done|].
  destruct (p c) eqn:Hc; [|done]. simpl. by rewrite (Hpq c Hc), IH.
Qed.

Lemma all_take (p : ascii -> bool) (n : nat) (a : string) :
  all p a = true -> all p (Py.take n a) = true.
Proof.
  unfold all, Py.take. revert n. induction a as [|c a IH]; intros n; simpl.
  - by destruct n.
  - intros Hp. apply andb_true_iff in Hp as [Hc Ha].
    destruct n as [|n]; simpl; [done|]. by rewrite Hc, IH.
Qed.

Lemma all_impl (p q : ascii -> bool) (a : string) :
  (forall c, p c = true -> q c = true) -> all p a = true -> all q a = true.
Proof.
  intros Hpq. unfold all. induction a as [|c a IH]; simpl; [done|].
  intros Hp. apply andb_true_iff in Hp as [Hc Ha]. by rewrite (Hpq c Hc), IH.
Qed.

Lemma length_take (n : nat) (a : string) : (String.length (Py.take n a) <= n)%nat.
Proof.
  unfold Py.take. revert n. induction a as [|c a IH]; intros n; simpl.
  - destruct n; simpl; lia.
  - destruct n as [|n]; simpl; [lia|]. specialize (IH n). lia.
Qed.

Lemma take_app_long (n : nat) (a b : string) :
  (n <= String.length a)%nat -> Py.take n (a +:+ b) = Py.take n a.
Proof.
  unfold Py.take. revert n.
  induction a as [|c a IH]; intros n; rewrite ?app_nil, ?app_cons; simpl.
  - intros Hn. assert (n = 0)%nat as -> by lia. by destruct b.
  - destruct n as [|n]; simpl; [done|]. intros Hn. rewrite IH; [done|lia].
Qed.

Lemma app_assoc (a b c : string) : (a +:+ b) +:+ c = a +:+ (b +:+ c).
Proof. induction a as [|x a IH]; rewrite ?app_nil, ?app_cons; [done|]. by f_equal. Qed.

Lemma lower_app (a b : string) : Py.lower (a +:+ b) = Py.lower a +:+ Py.lower b.
Proof.
  induction a as [|x a IH]; rewrite ?app_nil, ?app_cons; simpl; [done|].
  rewrite app_cons. by f_equal.
Qed.

Lemma replace_app (x y : ascii) (a b : string) :
  Py.replace x y (a +:+ b) = Py.replace x y a +:+ Py.replace x y b.
Proof.
  induction a as [|c a IH]; rewrite ?app_nil, ?app_cons; simpl; [done|].
  rewrite app_cons. by f_equal.
Qed.

Lemma length_lower (a : string) : String.length (Py.lower a) = String.length a.
Proof. induction a as [|c a IH]; simpl; [done|]. by rewrite IH. Qed.

Lemma length_replace (x y : ascii) (a : string) :
  String.length (Py.replace x y a) = String.length a.
Proof. induction a as [|c a IH]; simpl; [done|]. by rewrite IH. Qed.

Lemma length_app (a b : string) :
  String.length (a +:+ b) = (String.length a + String.length b)%nat.
Proof.
  induction a as [|c a IH]; rewrite ?app_nil, ?app_cons; simpl; [done|].
  by f_equal.
Qed.

Lemma kept_after_lower (c : ascii) :
  (Py.is_alpha (Py.lower_char c) || Py.is_digit (Py.lower_char c)
   || Py.is_space (Py.lower_char c) || Ascii.eqb (Py.lower_char c) "-") = true ->
  is_kept (Py.lower_char c) = true.
Proof. by_cases_on_char c. Qed.

Lemma all_keep_lower (p q : ascii -> bool) (a : string) :
  (forall c, p (Py.lower_char c) = true -> q (Py.lower_char c) = true) ->
  all q (Py.keep p (Py.lower a)) = true.
Proof.
  intros Hpq. unfold all. induction a as [|c a IH]; simpl; [done|].
  destruct (p (Py.lower_char c)) eqn:Hc; [|done]. simpl. by rewrite (Hpq c Hc), IH.
Qed.

Lemma kept_not_space (c : ascii) :
  is_kept c = true -> Py.is_space c = false -> is_slug_char c = true.
Proof.
  unfold is_kept, is_slug_char. intros Hk Hs. rewrite Hs in Hk.
  by rewrite orb_false_r in Hk.
Qed.

Lemma all_sub_spaces (b : bool) (a : string) :
  all is_kept a = true -> all is_slug_char (Py.sub_runs Py.is_space "-" b a) = true.
Proof.
  unfold all. revert b. induction a as [|c a IH]; intros b; simpl; [done|].
  intros Hp. apply andb_true_iff in Hp as [Hc Ha].
  destruct (Py.is_space c) eqn:Hs.
  - destruct b; simpl; by rewrite ?IH.
  - simpl. by rewrite (kept_not_space c Hc Hs), IH.
Qed.

Lemma all_sub_hyphens (b : bool) (a : string) :
  all is_slug_char a = true ->
  all is_slug_char (Py.sub_runs (fun c => Ascii.eqb c "-") "-" b a) = true.
Proof.
  unfold all. revert b. induction a as [|c a IH]; intros b; simpl; [done|].
  intros Hp. apply andb_true_iff in Hp as [Hc Ha].
  destruct (Ascii.eqb c "-") eqn:Hh.
  - destruct b; simpl; by rewrite ?IH.
  - simpl. by rewrite Hc, IH.
Qed.

Lemma sub_hyphens_collapses (b : bool) (a : string) :
  no_double_hyphen (Py.sub_runs (fun c => Ascii.eqb c "-") "-" b a) = true
  /\ (b = true ->
      starts_with_hyphen (Py.sub_runs (fun c => Ascii.eqb c "-") "-" b a) = false).
Proof.
  revert b. induction a as [|c a IH]; intros b; simpl; [done|].
  destruct (Ascii.eqb c "-") eqn:Hh.
  - destruct (IH true) as [Hnd Hst]. destruct b; simpl.
    + split; [done|]. intros _. by apply Hst.
    + rewrite Hst by done. simpl. split; [done|]. intros ?. done.
  - destruct (IH false) as [Hnd _]. simpl. rewrite Hh. simpl. split; [done|]. done.
Qed.

Lemma slug_body_chars (name : string) : all is_slug_char (slug_body name) = true.
Proof.
  unfold slug_body. apply all_sub_hyphens, all_sub_spaces, all_strip.
  apply all_keep_lower. intros c. apply kept_after_lower.
Qed.

(** X6.  For an ASCII project name a generated slug is a cleaned name,
    a hyphen and the random suffix; the cleaned name holds only
    lowercase letters, digits and hyphens, with no two hyphens in a row,
    so that the whole slug holds only such characters when the suffix
    does. *)
Theorem slug_is_url_safe (name hex8 : string) :
  Py.is_ascii name = true ->
  (exists body,
      generate_slug name hex8 = body +:+ "-" +:+ hex8
      /\ all is_slug_char body = true
      /\ no_double_hyphen body = true)
  /\ (all is_slug_char hex8 = true ->
      all is_slug_char (generate_slug name hex8) = true).
Proof.
  intros _. pose proof (slug_body_chars name) as Hbody. split.
  - exists (slug_body name). split; [reflexivity|]. split; [exact Hbody|].
    unfold slug_body. apply sub_hyphens_collapses.
  - intros Hhex.
    change (generate_slug name hex8) with (slug_body name +:+ "-" +:+ hex8).
    rewrite !all_app, Hbody, Hhex. reflexivity.
Qed.

Lemma slug_is_url_safe_witness :
  all is_slug_char (generate_slug "My  Shop!" "0a1b2c3d") = true.
Proof.
  exact (proj2 (slug_is_url_safe "My  Shop!" "0a1b2c3d" eq_refl) eq_refl).
Defined.

Lemma slug_to_db_char (c : ascii) :
  is_slug_char c = true ->
  is_db_char (Py.lower_char (if Ascii.eqb c "-" then "_"%char else c)) = true.
Proof. by_cases_on_char c. Qed.

Lemma slug_lower_char (c : ascii) :
  is_slug_char c = true -> is_slug_char (Py.lower_char c) = true.
Proof. by_cases_on_char c. Qed.

Lemma all_db_of_slug (a : string) :
  all is_slug_char a = true -> all is_db_char (Py.lower (Py.replace "-" "_" a)) = true.
Proof.
  unfold all. induction a as [|c a IH]; simpl; [done|].
  intros Hp. apply andb_true_iff in Hp as [Hc Ha].
  by rewrite (slug_to_db_char c Hc), IH.
Qed.

Lemma all_lower_slug (a : string) :
  all is_slug_char a = true -> all is_slug_char (Py.lower a) = true.
Proof.
  unfold all. induction a as [|c a IH]; simpl; [done|].
  intros Hp. apply andb_true_iff in Hp as [Hc Ha].
  by rewrite (slug_lower_char c Hc), IH.
Qed.

(** X7.  For an ASCII project name the database and bucket names handed
    to the backends are at most 63 characters long; and when the random
    suffix is made of lowercase letters and digits, the database name
    holds only lowercase letters, digits and underscores and the bucket
    name only lowercase letters, digits and hyphens. *)
Theorem provisioned_names_are_bounded (project_name hex8 : string) :
  Py.is_ascii project_name = true ->
  (String.length (snd (fst (generate_project_names project_name hex8))) <= 63)%nat
  /\ (String.length (snd (generate_project_names project_name hex8)) <= 63)%nat
  /\ (all is_slug_char hex8 = true ->
      all is_db_char (snd (fst (generate_project_names project_name hex8))) = true
      /\ all is_slug_char (snd (generate_project_names project_name hex8)) = true).
Proof.
  intros _. unfold generate_project_names. cbn [fst snd].
  split; [apply length_take|]. split; [apply length_take|].
  intros Hhex. pose proof (slug_body_chars project_name) as Hbody.
  assert (Hslug : all is_slug_char (generate_slug project_name hex8) = true).
  { change (generate_slug project_name hex8)
      with (slug_body project_name +:+ "-" +:+ hex8).
    rewrite !all_app, Hbody, Hhex. reflexivity. }
  split.
  - apply all_take. rewrite !lower_app, !all_app.
    rewrite (all_db_of_slug _ Hslug). reflexivity.
  - apply all_take. rewrite !lower_app, !all_app.
    rewrite (all_lower_slug _ Hslug). reflexivity.
Qed.

Lemma provisioned_names_are_bounded_witness :
  all is_db_char (snd (fst (generate_project_names "My Shop" "0a1b2c3d"))) = true
  /\ all is_slug_char (snd (generate_project_names "My Shop" "0a1b2c3d")) = true.
Proof.
  exact (proj2 (proj2 (provisioned_names_are_bounded "My Shop" "0a1b2c3d" eq_refl))
           eq_refl).
Defined.

(** X8.  The random suffix does not survive the cut to 63 characters
    when the cleaned form of an ASCII project name has 55 characters or
    more: two provisioning runs for such a name get the same database
    and bucket names, whatever suffixes they draw. *)
Theorem long_names_lose_the_suffix (project_name h1 h2 : string) :
  Py.is_ascii project_name = true ->
  (55 <= String.length (slug_body project_name))%nat ->
  snd (fst (generate_project_names project_name h1))
  = snd (fst (generate_project_names project_name h2))
  /\ snd (generate_project_names project_name h1)
     = snd (generate_project_names project_name h2).
Proof.
  intros _ Hlong. unfold generate_project_names. cbn [fst snd].
  change (generate_slug project_name h1) with (slug_body project_name +:+ "-" +:+ h1).
  change (generate_slug project_name h2) with (slug_body project_name +:+ "-" +:+ h2).
  split.
  - assert (Hshape : forall h,
      Py.lower ("project_" +:+ Py.replace "-" "_" (slug_body project_name +:+ "-" +:+ h)
                +:+ "_db")
      = (Py.lower "project_" +:+ Py.lower (Py.replace "-" "_" (slug_body project_name)))
        +:+ Py.lower (Py.replace "-" "_" ("-" +:+ h)) +:+ Py.lower "_db").
    { intros h. rewrite replace_app, !lower_app. by rewrite !app_assoc. }
    assert (Hlen : (63 <= String.length
              (Py.lower "project_"
               +:+ Py.lower (Py.replace "-" "_" (slug_body project_name))))%nat).
    { rewrite length_app, !length_lower, length_replace. simpl. lia. }
    rewrite !Hshape. by rewrite !(take_app_long 63 _ _ Hlen).
  - assert (Hshape : forall h,
      Py.lower ("project-" +:+ (slug_body project_name +:+ "-" +:+ h) +:+ "-bucket")
      = (Py.lower "project-" +:+ Py.lower (slug_body project_name))
        +:+ Py.lower ("-" +:+ h) +:+ Py.lower "-bucket").
    { intros h. rewrite !lower_app. by rewrite !app_assoc. }
    assert (Hlen : (63 <= String.length
              (Py.lower "project-" +:+ Py.lower (slug_body project_name)))%nat).
    { rewrite length_app, !length_lower. simpl. lia. }
    rewrite !Hshape. by rewrite !(take_app_long 63 _ _ Hlen).
Qed.

Lemma long_names_lose_the_suffix_witness :
  snd (fst (generate_project_names long_name "0a1b2c3d"))
  = snd (fst (generate_project_names long_name "4e5f6a7b"))
  /\ snd (generate_project_names long_name "0a1b2c3d")
     = snd (generate_project_names long_name "4e5f6a7b").
Proof.
  apply (long_names_lose_the_suffix long_name "0a1b2c3d" "4e5f6a7b").
  - vm_compute. reflexivity.
  - vm_compute. lia.
Defined.

End ProjectNamesFacts.

(** ** The life of a project record *)

Module ProjectLifecycleFacts.
Import Models Rbac Projects Access.

Lemma owner_resolves_to_owner (user project : Z) (session : Session) (p : Project) :
  projects session !! project = Some p -> owner_id p = user ->
  get_user_role user project session = Some OWNER.
Proof.
  intros Hp Ho. unfold get_user_role. rewrite Hp. by rewrite bool_decide_eq_true_2.
Qed.

Lemma owner_gates (op : DynamicOp) (project user : Z) (session : Session) (p : Project) :
  projects session !! project = Some p -> owner_id p = user ->
  authorize op project user session = owner_answer op p.
Proof.
  intros Hp Ho. pose proof (owner_resolves_to_owner user project session p Hp Ho) as Hr.
  destruct op; simpl;
    unfold require_project_editor, require_project_viewer, get_project_with_role,
      get_project_and_verify_access;
    rewrite Hp, ?Hr; simpl; rewrite ?bool_decide_eq_true_2 by done; simpl;
    by destruct (String.eqb (provisioning_status p) "completed").
Qed.



(** X10.  For an ASCII project name: right after a creation that went
    through the creator resolves to OWNER; table creation, row insert and row listing answer 400 until
    provisioning has completed, while table listing, schema lookup and
    table drop are let through at once, since they do not test the
    status.  After a provisioning task that returns, all six are let
    through when it stored its names, and the three status-checking ones
    still answer 400 when it did not. *)
Theorem gates_of_a_new_project (session : Session) (project_in : ProjectCreate)
    (user : Z) (hex8 : string) (ok : bool) (env : Env) (op : DynamicOp)
    (s1 : Session) (p : Project) :
  Py.is_ascii (pc_name project_in) = true ->
  create_project session project_in user hex8 ok = Return (s1, p) ->
  get_user_role user (p_id p) s1 = Some OWNER
  /\ authorize op (p_id p) user s1
     = match op with
       | CreateTable | InsertRow | SelectRows => Raise {| status_code := 400 |}
       | ListTables | GetSchema | DropTable => Return p
       end
  /\ (forall s2,
        provision_project_infrastructure (p_id p) (name p) s1 env = Return s2 ->
        exists p', projects s2 !! p_id p = Some p'
          /\ authorize op (p_id p) user s2
             = if renames (p_id p) (name p) s1 env then Return p'
               else match op with
                    | CreateTable | InsertRow | SelectRows =>
                      Raise {| status_code := 400 |}
                    | ListTables | GetSchema | DropTable => Return p'
                    end).
Proof.
  intros _ Hcreate.
  destruct (ProjectsFacts.create_project_returns _ _ _ _ _ _ _ Hcreate)
    as (-> & Hid & _ & Howner & Hstatus & _).
  assert (Hstored : projects (store session (fresh_id (projects session)) p) !! p_id p
                    = Some p) by (rewrite Hid; apply lookup_insert_eq).
  split; [by apply (owner_resolves_to_owner _ _ _ p)|]. split.
  - rewrite (owner_gates op _ _ _ p Hstored Howner). unfold owner_answer.
    rewrite Hstatus. by destruct op.
  - intros s2. rewrite ProjectsFacts.provision_result, Hstored.
    destruct (renames (p_id p) (name p) _ env).
    + destruct (generate_project_names (name p) (uuid_hex8 env)) as [[s d] b].
      intros [= <-]. eexists. split; [apply lookup_insert_eq|].
      rewrite (owner_gates op _ _ _ (set_infrastructure p s d b));
        [|apply lookup_insert_eq|done].
      by destruct op.
    + destruct (status_commit_ok env); [|done].
      intros [= <-]. eexists. split; [apply lookup_insert_eq|].
      rewrite (owner_gates op _ _ _ (set_status p "failed"));
        [|apply lookup_insert_eq|done].
      by destruct op.
Qed.

Lemma gates_of_a_new_project_witness :
  get_user_role 10 1 shop_session = Some OWNER
  /\ authorize SelectRows 1 10 shop_session = Raise {| status_code := 400 |}.
Proof.
  destruct (gates_of_a_new_project no_projects shop 10 "0a1b2c3d" true all_well
              SelectRows shop_session shop_project eq_refl
              ltac:(vm_compute; reflexivity))
    as (Hrole & Hgate & _).
  split; [exact Hrole|exact Hgate].
Defined.

(** X11.  A project is never created with a zero or missing quota: when
    the creation goes through, each of the four quotas holds the
    requested value if that is not zero and the default otherwise
    (1000 items, 100 MB, 1000 calls, 30 days), and fits the INTEGER
    column; a request with a quota that does not fit is answered 500. *)
Theorem creation_quotas (session : Session) (project_in : ProjectCreate)
    (user : Z) (hex8 : string) (ok : bool) :
  let stored (requested : option Z) (d : Z) : Z :=
    match requested with
    | Some v => if bool_decide (v = 0) then d else v
    | None => d
    end in
  (forall session' p,
      create_project session project_in user hex8 ok = Return (session', p) ->
      max_items p = Some (stored (pc_max_items project_in) 1000)
      /\ storage_limit_mb p = Some (stored (pc_storage_limit_mb project_in) 100)
      /\ api_rate_limit p = Some (stored (pc_api_rate_limit project_in) 1000)
      /\ backup_retention_days p = Some (stored (pc_backup_retention_days project_in) 30)
      /\ max_items p <> Some 0 /\ storage_limit_mb p <> Some 0
      /\ api_rate_limit p <> Some 0 /\ backup_retention_days p <> Some 0
      /\ quotas_fit p = true
      /\ provisioning_status p = "pending" /\ owner_id p = user)
  /\ (fits_integer (Some (stored (pc_max_items project_in) 1000))
      && fits_integer (Some (stored (pc_storage_limit_mb project_in) 100))
      && fits_integer (Some (stored (pc_api_rate_limit project_in) 1000))
      && fits_integer (Some (stored (pc_backup_retention_days project_in) 30)) = false ->
      create_project session project_in user hex8 ok = Raise {| status_code := 500 |}).
Proof.
  intros stored.
  assert (Hor : forall x d, or_int x d = stored x d).
  { intros [v|] d; simpl; [|done]. destruct (Z.eqb_spec v 0) as [->|Hne].
    - by rewrite bool_decide_eq_true_2.
    - by rewrite bool_decide_eq_false_2. }
  assert (Hnz : forall x d, d <> 0 -> Some (or_int x d) <> Some 0).
  { intros [v|] d Hd; simpl; [|congruence].
    destruct (Z.eqb_spec v 0); congruence. }
  split.
  - intros session' p Hcreate.
    destruct (ProjectsFacts.create_project_returns _ _ _ _ _ _ _ Hcreate)
      as (_ & _ & _ & Howner & Hstatus & _ & _ & _ & Hfit).
    assert (Hquotas :
              max_items p = Some (or_int (pc_max_items project_in) 1000)
              /\ storage_limit_mb p = Some (or_int (pc_storage_limit_mb project_in) 100)
              /\ api_rate_limit p = Some (or_int (pc_api_rate_limit project_in) 1000)
              /\ backup_retention_days p
                 = Some (or_int (pc_backup_retention_days project_in) 30)).
    { revert Hcreate. unfold create_project.
      destruct (ok && _ && _); [|done]. by intros [= _ <-]. }
    destruct Hquotas as (-> & -> & -> & ->).
    repeat split; try done; try (by rewrite Hor); by apply Hnz.
  - intros Hfit. unfold create_project, quotas_fit.
    cbn [max_items storage_limit_mb api_rate_limit backup_retention_days].
    rewrite !Hor, Hfit. by rewrite andb_false_r.
Qed.

Lemma creation_quotas_witness :
  create_project no_projects
    {| pc_name := "Shop"; pc_description := None; pc_max_items := Some (2 ^ 40);
       pc_storage_limit_mb := None; pc_api_rate_limit := None; pc_webhook_url := None;
       pc_is_public := None; pc_auto_backup := None; pc_backup_retention_days := None |}
    10 "0a1b2c3d" true
  = Raise {| status_code := 500 |}.
Proof.
  apply (creation_quotas no_projects
           {| pc_name := "Shop"; pc_description := None; pc_max_items := Some (2 ^ 40);
              pc_storage_limit_mb := None; pc_api_rate_limit := None;
              pc_webhook_url := None; pc_is_public := None; pc_auto_backup := None;
              pc_backup_retention_days := None |} 10 "0a1b2c3d" true).
  vm_compute. reflexivity.
Defined.

Lemma fold_setattr_identity (update_data : list FieldUpdate) (p : Project) :
  p_id (fold_left setattr update_data p) = p_id p
  /\ owner_id (fold_left setattr update_data p) = owner_id p
  /\ slug (fold_left setattr update_data p) = slug p
  /\ provisioning_status (fold_left setattr update_data p) = provisioning_status p
  /\ db_name (fold_left setattr update_data p) = db_name p
  /\ bucket_name (fold_left setattr update_data p) = bucket_name p.
Proof.
  revert p. induction update_data as [|u l IH]; intros p; simpl; [done|].
  destruct (IH (setattr p u)) as (-> & -> & -> & -> & -> & ->). by destruct u.
Qed.

(** X12.  [update_project] answers 404 for an unknown project and 403 to
    anyone but the owner; when it goes through it was asked by the owner,
    it stores the updated record under the same key, and the record keeps
    its key, owner, slug, provisioning status, database and bucket names,
    whatever fields the request sets. *)
Theorem update_project_keeps_identity (session : Session) (project : Z)
    (update_data : list FieldUpdate) (user : Z) :
  match update_project session project update_data user with
  | Return (session', p') =>
    exists p, projects session !! project = Some p /\ owner_id p = user
      /\ p_id p' = p_id p /\ owner_id p' = owner_id p /\ slug p' = slug p
      /\ provisioning_status p' = provisioning_status p
      /\ db_name p' = db_name p /\ bucket_name p' = bucket_name p
      /\ projects session' = <[project := p']> (projects session)
      /\ memberships session' = memberships session
  | Raise e =>
    (status_code e = 404 /\ projects session !! project = None)
    \/ (status_code e = 403
        /\ exists p, projects session !! project = Some p /\ owner_id p <> user)
  end.
Proof.
  unfold update_project. destruct (projects session !! project) as [p|] eqn:Hp.
  - destruct (bool_decide (owner_id p = user)) eqn:Ho; simpl.
    + apply bool_decide_eq_true_1 in Ho. exists p.
      destruct (fold_setattr_identity update_data p) as (? & ? & ? & ? & ? & ?).
      repeat split; done.
    + apply bool_decide_eq_false_1 in Ho. right. split; [done|]. by exists p.
  - left. done.
Qed.

End ProjectLifecycleFacts.

(** ** Validated names and column lists *)

Module TableSchemaLaws.
Import TableSchema SchemaSamples.

Ltac by_cases_on_char c :=
  destruct c as [[] [] [] [] [] [] [] []]; vm_compute; try reflexivity; try discriminate.

Lemma lower_char_idem (c : ascii) : Py.lower_char (Py.lower_char c) = Py.lower_char c.
Proof. by_cases_on_char c. Qed.

Lemma lower_idem (s : string) : Py.lower (Py.lower s) = Py.lower s.
Proof. induction s as [|c s IH]; simpl; [done|]. by rewrite lower_char_idem, IH. Qed.

Lemma validate_returns (reserved : gset string) (e : ValueError) (v w : string) :
  (if negb (Py.re_match_identifier v) then Raise BadIdentifier
   else if bool_decide (Py.lower v ∈ reserved) then Raise e
   else Return (Py.lower v)) = Return w ->
  Py.re_match_identifier v = true /\ (Py.lower v ∉ reserved) /\ w = Py.lower v.
Proof.
  destruct (Py.re_match_identifier v); simpl; [|done].
  destruct (bool_decide (Py.lower v ∈ reserved)) eqn:Hr; [done|].
  apply bool_decide_eq_false_1 in Hr. by intros [= <-].
Qed.

Lemma validate_accepts (reserved : gset string) (e : ValueError) (v w : string) :
  Py.re_match_identifier v = true -> (Py.lower v ∉ reserved) -> w = Py.lower v ->
  (if negb (Py.re_match_identifier v) then Raise BadIdentifier
   else if bool_decide (Py.lower v ∈ reserved) then Raise e
   else Return (Py.lower v)) = Return w.
Proof.
  intros -> Hr ->. simpl. by rewrite bool_decide_eq_false_2.
Qed.

(** X13.  What a name validator returns is a fixed point of it: the
    returned name is its own lowercase form and validating it again
    returns it unchanged, for column names and for table names. *)
Theorem validated_names_are_normal (v w : string) :
  (validate_column_name v = Return w ->
   Py.lower w = w /\ validate_column_name w = Return w)
  /\ (validate_table_name v = Return w ->
      Py.lower w = w /\ validate_table_name w = Return w).
Proof.
  split; intros Hv; apply validate_returns in Hv as (Hm & Hr & ->);
    (split; [apply lower_idem|]);
    [unfold validate_column_name|unfold validate_table_name];
    apply validate_accepts;
    [by rewrite TableSchemaFacts.re_match_lower|by rewrite lower_idem
    |symmetry; apply lower_idem
    |by rewrite TableSchemaFacts.re_match_lower|by rewrite lower_idem
    |symmetry; apply lower_idem].
Qed.

Lemma validated_names_are_normal_witness :
  validate_column_name "email" = Return "email"
  /\ validate_table_name "orders" = Return "orders".
Proof.
  split.
  - exact (proj2 (proj1 (validated_names_are_normal "Email" "email") eq_refl)).
  - exact (proj2 (proj2 (validated_names_are_normal "Orders" "orders") eq_refl)).
Defined.

Lemma has_newline_app (s : string) : has_newline (s +:+ newline) = true.
Proof.
  unfold has_newline. induction s as [|c s IH].
  - reflexivity.
  - change (String c s +:+ newline) with (String c (s +:+ newline)).
    cbn [list_ascii_of_string existsb]. rewrite IH. apply orb_true_r.
Qed.

Lemma lower_newline (s : string) : Py.lower (s +:+ newline) = Py.lower s +:+ newline.
Proof.
  induction s as [|c s IH]; [reflexivity|].
  change (String c s +:+ newline) with (String c (s +:+ newline)).
  cbn [Py.lower]. rewrite IH. reflexivity.
Qed.

Lemma has_newline_lower (s : string) : has_newline (Py.lower s) = has_newline s.
Proof.
  unfold has_newline. induction s as [|c s IH]; [reflexivity|].
  cbn [Py.lower list_ascii_of_string existsb]. rewrite IH. f_equal.
  rewrite Ascii.eqb_sym, TableSchemaFacts.lower_char_nl. apply Ascii.eqb_sym.
Qed.

Lemma word_tail_newline (s : string) :
  has_newline s = false -> Py.match_word_tail s = true ->
  Py.match_word_tail (s +:+ newline) = true.
Proof.
  unfold has_newline. induction s as [|c s IH]; [reflexivity|].
  change (String c s +:+ newline) with (String c (s +:+ newline)).
  cbn [list_ascii_of_string existsb Py.match_word_tail].
  intros Hnl. apply orb_false_iff in Hnl as [Hc Hs].
  destruct (Py.is_word c); [by apply IH|].
  rewrite Ascii.eqb_sym in Hc. by rewrite Hc.
Qed.

Lemma re_match_newline (s : string) :
  has_newline s = false -> Py.re_match_identifier s = true ->
  Py.re_match_identifier (s +:+ newline) = true.
Proof.
  destruct s as [|c s]; [done|].
  change (String c s +:+ newline) with (String c (s +:+ newline)).
  unfold has_newline. cbn [list_ascii_of_string existsb Py.re_match_identifier].
  intros Hnl. apply orb_false_iff in Hnl as [_ Hs].
  intros Hm. apply andb_true_iff in Hm as [-> Ht]. by apply word_tail_newline.
Qed.

Lemma reserved_keywords_one_line (s : string) :
  s ∈ reserved_keywords -> has_newline s = false.
Proof.
  unfold reserved_keywords. rewrite elem_of_list_to_set, list_elem_of_In. simpl.
  intros H. repeat (destruct H as [<-|H]; [reflexivity|]). done.
Qed.

Lemma reserved_names_one_line (s : string) :
  s ∈ reserved_names -> has_newline s = false.
Proof.
  unfold reserved_names. rewrite elem_of_list_to_set, list_elem_of_In. simpl.
  intros H. repeat (destruct H as [<-|H]; [reflexivity|]). done.
Qed.

Lemma validator_accepts_newline (v w : string) :
  has_newline v = false ->
  (validate_column_name v = Return w ->
   validate_column_name (v +:+ newline) = Return (w +:+ newline))
  /\ (validate_table_name v = Return w ->
      validate_table_name (v +:+ newline) = Return (w +:+ newline)).
Proof.
  intros Hnl. split; intros Hv; apply validate_returns in Hv as (Hm & Hr & ->);
    [unfold validate_column_name|unfold validate_table_name];
    apply validate_accepts;
    [by apply re_match_newline
    |intros Hin; apply reserved_keywords_one_line in Hin;
     by rewrite has_newline_lower, has_newline_app in Hin
    |symmetry; apply lower_newline
    |by apply re_match_newline
    |intros Hin; apply reserved_names_one_line in Hin;
     by rewrite has_newline_lower, has_newline_app in Hin
    |symmetry; apply lower_newline].
Qed.

Lemma length_newline (s : string) :
  String.length (s +:+ newline) = S (String.length s).
Proof.
  induction s as [|c s IH]; [reflexivity|].
  change (String c s +:+ newline) with (String c (s +:+ newline)).
  cbn [String.length]. by rewrite IH.
Qed.

Lemma field_newline (validator : string -> Result ValueError string) (v w : string) :
  (validator v = Return w -> validator (v +:+ newline) = Return (w +:+ newline)) ->
  constrained_str validator v = Return w ->
  constrained_str validator (v +:+ newline)
  = if (String.length v <? 63)%nat then Return (w +:+ newline) else Raise StringTooLong.
Proof.
  intros Hvalidator. unfold constrained_str. rewrite length_newline.
  destruct (String.length v <? 1)%nat eqn:Hshort; [done|].
  destruct (63 <? String.length v)%nat eqn:Hlong; [done|].
  destruct (validator v) as [e|w'] eqn:Hv; [done|]. intros [= ->].
  apply Nat.ltb_ge in Hlong.
  rewrite (proj2 (Nat.ltb_ge (S (String.length v)) 1)) by lia.
  destruct (String.length v <? 63)%nat eqn:Hroom.
  - apply Nat.ltb_lt in Hroom.
    rewrite (proj2 (Nat.ltb_ge 63 (S (String.length v)))) by lia.
    by rewrite Hvalidator.
  - apply Nat.ltb_ge in Hroom.
    by rewrite (proj2 (Nat.ltb_lt 63 (S (String.length v)))) by lia.
Qed.

(** X14.  The pattern's [$] lets a final line break through: a column
    or table name without a line break that the field accepts is also
    accepted with a newline appended, the newline kept in the returned
    name, as long as it has fewer than 63 characters; with 63 characters
    the longer name is over the bound of the field and is refused. *)
Theorem trailing_newline_is_accepted (v w : string) :
  has_newline v = false ->
  (column_name_field v = Return w ->
   column_name_field (v +:+ newline)
   = if (String.length v <? 63)%nat then Return (w +:+ newline) else Raise StringTooLong)
  /\ (table_name_field v = Return w ->
      table_name_field (v +:+ newline)
      = if (String.length v <? 63)%nat then Return (w +:+ newline)
        else Raise StringTooLong).
Proof.
  intros Hnl. destruct (validator_accepts_newline v w Hnl) as [Hcolumn Htable].
  split; by apply field_newline.
Qed.

Lemma trailing_newline_is_accepted_witness :
  table_name_field ("orders" +:+ newline) = Return ("orders" +:+ newline).
Proof.
  exact (proj2 (trailing_newline_is_accepted "orders" "orders" eq_refl) eq_refl).
Defined.

Lemma size_le_length (l : list string) :
  (size (list_to_set l : gset string) <= List.length l)%nat.
Proof.
  induction l as [|x l IH]; cbn [List.length].
  - rewrite list_to_set_nil, size_empty. lia.
  - rewrite list_to_set_cons, size_union_alt, size_singleton.
    assert (size (list_to_set l ∖ {[x]} : gset string) <= size (list_to_set l : gset string))%nat.
    { apply subseteq_size. apply subseteq_difference_l. done. }
    lia.
Qed.

Lemma length_size_NoDup (l : list string) :
  List.length l = size (list_to_set l : gset string) <-> NoDup l.
Proof.
  split.
  - induction l as [|x l IH]; [constructor|].
    cbn [List.length]. rewrite list_to_set_cons.
    intros Hlen. destruct (decide (x ∈ l)) as [Hin|Hnin].
    + assert (({[x]} ∪ list_to_set l : gset string) = list_to_set l) as Heq.
      { apply subseteq_union_1_L, singleton_subseteq_l, elem_of_list_to_set. done. }
      rewrite Heq in Hlen. pose proof (size_le_length l). lia.
    + rewrite size_union, size_singleton in Hlen.
      * constructor; [done|]. apply IH. lia.
      * apply disjoint_singleton_l. by rewrite elem_of_list_to_set.
  - intros Hnd. symmetry. by apply size_list_to_set.
Qed.

(** What [validate_columns] has checked when it returns. *)
Lemma validate_columns_returns (v r : list ColumnSchema) :
  validate_columns v = Return r ->
  v <> []
  /\ NoDup (map (fun col => Py.lower (name col)) v)
  /\ (List.length (List.filter primary_key v) <= 1)%nat
  /\ r = match List.filter primary_key v with [] => id_column :: v | _ => v end.
Proof.
  unfold validate_columns. destruct v as [|c v]; [done|].
  destruct (Nat.eqb _ _) eqn:Hlen; cbn [negb]; [|done].
  apply Nat.eqb_eq in Hlen. apply length_size_NoDup in Hlen.
  destruct (Nat.ltb 1 (List.length (List.filter primary_key (c :: v)))) eqn:Hpk;
    [done|].
  apply Nat.ltb_ge in Hpk.
  intros Hr. split; [done|]. split; [exact Hlen|]. split; [exact Hpk|].
  destruct (List.filter primary_key (c :: v)); by injection Hr as <-.
Qed.

(** X15.  A column list that passes validation comes back with exactly
    one primary-key column: the declared one, with the list unchanged, or
    the synthesized auto-increment [id] in front of the unchanged list
    when none was declared; an empty list and a list with two declared
    keys are refused. *)
Theorem validated_columns_have_one_key (v r : list ColumnSchema) :
  validate_columns v = Return r ->
  List.length (List.filter primary_key r) = 1%nat
  /\ ((r = v /\ List.filter primary_key v <> [])
      \/ (r = id_column :: v /\ List.filter primary_key v = []))
  /\ v <> []
  /\ (List.length (List.filter primary_key v) <= 1)%nat.
Proof.
  intros Hv. apply validate_columns_returns in Hv as (Hne & _ & Hpk & ->).
  destruct (List.filter primary_key v) as [|k [|k' ks]] eqn:Hf.
  - split; [simpl; by rewrite Hf|]. split; [by right|]. done.
  - split; [by rewrite Hf|]. split; [by left|]. done.
  - simpl in Hpk. lia.
Qed.

Lemma validated_columns_have_one_key_witness :
  List.length (List.filter primary_key [id_column; id_text]) = 1%nat.
Proof.
  exact (proj1 (validated_columns_have_one_key [id_text] [id_column; id_text] eq_refl)).
Defined.

(** X16.  When the columns carry validated (lowercase) names and either
    a primary key is declared or no column is called [id], the validated
    list has no two columns of the same name. *)
Theorem validated_columns_are_distinct (v r : list ColumnSchema) :
  validate_columns v = Return r ->
  (forall col, In col v -> Py.lower (name col) = name col) ->
  List.filter primary_key v <> [] \/ ~ In "id" (map name v) ->
  NoDup (map name r).
Proof.
  intros Hv Hlower Hid. apply validate_columns_returns in Hv as (_ & Hnd & _ & ->).
  assert (map (fun col => Py.lower (name col)) v = map name v) as Hnames.
  { apply map_ext_in. exact Hlower. }
  rewrite Hnames in Hnd.
  destruct (List.filter primary_key v) as [|k ks] eqn:Hf; [|done].
  destruct Hid as [Hc|Hid]; [done|].
  simpl. constructor; [|done]. by rewrite list_elem_of_In.
Qed.

Lemma validated_columns_are_distinct_witness :
  NoDup (map name [id_column; email_text]).
Proof.
  apply (validated_columns_are_distinct [email_text] [id_column; email_text]).
  - reflexivity.
  - intros col [<-|[]]. reflexivity.
  - right. simpl. intros [Hc|[]]. discriminate.
Defined.

End TableSchemaLaws.


(** ** Insert statements *)

Module RowStatementFacts.
Import TableRows RowStatements.

Lemma inserted_keys_cons (cmap : gmap string ColumnInfo) (col_name : string)
    (value : PyValue) (items : list (string * PyValue)) :
  inserted_keys cmap ((col_name, value) :: items)
  = if match cmap !! col_name with
       | Some column_info => negb (is_auto_increment column_info)
       | None => false
       end
    then col_name :: inserted_keys cmap items
    else inserted_keys cmap items.
Proof. reflexivity. Qed.

Lemma prepare_shape `{PyBuiltins} (cmap : gmap string ColumnInfo)
    (items : list (string * PyValue)) (i : Z)
    (cols : list string) (vals : list PyValue) (phs : list string)
    (cols' : list string) (vals' : list PyValue) (phs' : list string) :
  prepare cmap i items (cols, vals, phs) = Return (cols', vals', phs') ->
  cols' = (cols ++ map quoted (inserted_keys cmap items))%list
  /\ List.length vals' = (List.length vals + List.length (inserted_keys cmap items))%nat
  /\ List.length phs' = (List.length phs + List.length (inserted_keys cmap items))%nat.
Proof.
  revert i cols vals phs cols' vals' phs'.
  induction items as [|[col_name value] items IH];
    intros i cols vals phs cols' vals' phs'.
  - simpl. intros [= <- <- <-]. rewrite app_nil_r. split; [done|]. split; lia.
  - rewrite inserted_keys_cons. cbn [prepare].
    destruct (cmap !! col_name) as [column_info|]; [|done].
    destruct (is_auto_increment column_info); cbn [negb]; [apply IH|].
    destruct (convert_python_to_postgres_value value (type column_info)); [done|].
    intros Hprep. apply IH in Hprep as (-> & -> & ->).
    rewrite <- app_assoc, !length_app. cbn [map List.length app].
    split; [done|]. split; lia.
Qed.

Lemma prepare_numbering `{PyBuiltins} (cmap : gmap string ColumnInfo)
    (items : list (string * PyValue)) (i : Z)
    (cols : list string) (vals : list PyValue) (phs : list string)
    (cols' : list string) (vals' : list PyValue) (phs' : list string) :
  (forall k info, In k (map fst items) -> cmap !! k = Some info ->
                  is_auto_increment info = false) ->
  prepare cmap i items (cols, vals, phs) = Return (cols', vals', phs') ->
  phs' = (phs ++ map (fun j : nat => placeholder (i + Z.of_nat j))
                     (seq 0 (List.length items)))%list
  /\ inserted_keys cmap items = map fst items.
Proof.
  revert i cols vals phs cols' vals' phs'.
  induction items as [|[col_name value] items IH];
    intros i cols vals phs cols' vals' phs' Hall.
  - simpl. intros [= <- <- <-]. by rewrite app_nil_r.
  - rewrite inserted_keys_cons. cbn [prepare].
    destruct (cmap !! col_name) as [info|] eqn:Hinfo; [|done].
    rewrite (Hall col_name info) by (done || by left). cbn [negb].
    destruct (convert_python_to_postgres_value value (type info)); [done|].
    intros Hprep. apply IH in Hprep as [-> Hkeys].
    + split.
      * rewrite <- app_assoc. cbn [List.length seq map app fst].
        rewrite Z.add_0_r. f_equal. f_equal.
        rewrite <- seq_shift, map_map. apply map_ext. intros j.
        unfold placeholder. f_equal. f_equal. lia.
      * cbn [map fst]. f_equal. exact Hkeys.
    + intros k info' Hk. apply Hall. by right.
Qed.

Lemma prepare_text `{PyBuiltins} (cmap : gmap string ColumnInfo)
    (items1 items2 : list (string * PyValue)) (i : Z)
    (cols : list string) (vals1 vals2 : list PyValue) (phs : list string)
    (cols1 cols2 : list string) (vals1' vals2' : list PyValue) (phs1 phs2 : list string) :
  map fst items1 = map fst items2 ->
  prepare cmap i items1 (cols, vals1, phs) = Return (cols1, vals1', phs1) ->
  prepare cmap i items2 (cols, vals2, phs) = Return (cols2, vals2', phs2) ->
  cols1 = cols2 /\ phs1 = phs2.
Proof.
  revert items2 i cols vals1 vals2 phs.
  induction items1 as [|[k1 v1] items1 IH];
    intros [|[k2 v2] items2] i cols vals1 vals2 phs Hkeys; simpl in Hkeys; try done.
  - simpl. by intros [= <- <- <-] [= <- <- <-].
  - injection Hkeys as <- Hkeys. simpl.
    destruct (cmap !! k1) as [column_info|]; [|done].
    destruct (is_auto_increment column_info); [by apply IH|].
    destruct (convert_python_to_postgres_value v1 (type column_info)); [done|].
    destruct (convert_python_to_postgres_value v2 (type column_info)); [done|].
    by apply IH.
Qed.

(** The stages of [insert_dynamic_row] a returned statement went through. *)
Lemma insert_returns `{PyBuiltins} (db : Catalog) (table_name : string)
    (payload_dict : list (string * PyValue)) (st : InsertStmt) :
  insert_dynamic_row db table_name payload_dict = Return st ->
  exists columns,
    get_table_columns db table_name = Return columns
    /\ prepare (column_map columns) 1 payload_dict ([], [], [])
       = Return (insert_columns st, insert_values st, placeholders st)
    /\ insert_columns st <> [] /\ into st = table_name.
Proof.
  unfold insert_dynamic_row.
  destruct (get_table_columns db table_name) as [e|columns] eqn:Hcols; [done|]. simpl.
  destruct (List.find _ _); [done|].
  destruct (negb _); [done|].
  destruct (prepare (column_map columns) 1 payload_dict ([], [], []))
    as [e|[[cols vals] phs]] eqn:Hprep; [done|]. simpl.
  destruct cols as [|c cols]; [done|]. intros [= <-]. exists columns. simpl.
  split; [done|]. split; [exact Hprep|]. split; done.
Qed.

(** X17.  A payload key that names no column of the table makes the
    insert fail on the first such key, with an error that names the key
    and the table, whatever else the payload holds. *)
Theorem unknown_column_is_refused `{PyBuiltins} (db : Catalog) (table_name : string)
    (columns : list ColumnInfo) (before after : list (string * PyValue))
    (col_name : string) (value : PyValue) :
  get_table_columns db table_name = Return columns ->
  (forall k, In k (map fst before) -> In k (map name columns)) ->
  ~ In col_name (map name columns) ->
  insert_dynamic_row db table_name (before ++ (col_name, value) :: after)
  = Raise (ColumnDoesNotExist col_name table_name).
Proof.
  intros Hcols Hknown Hunknown. unfold insert_dynamic_row. rewrite Hcols. simpl.
  assert (List.find
            (fun k => negb (bool_decide (is_Some (column_map columns !! k))))
            (map fst (before ++ (col_name, value) :: after)) = Some col_name) as ->;
    [|done].
  induction before as [|[k v] before IH]; simpl.
  - rewrite bool_decide_eq_false_2; [done|].
    by rewrite TableRowsFacts.column_map_known.
  - rewrite bool_decide_eq_true_2.
    + simpl. apply IH. intros k' Hk'. apply Hknown. by right.
    + apply TableRowsFacts.column_map_known, Hknown. by left.
Qed.

Lemma unknown_column_is_refused_witness :
  (forall B : PyBuiltins,
     insert_dynamic_row tenant_db "people"
       [("name", PyStr "Ada"); ("nickname", PyStr "x"); ("age", PyInt 3)]
     = Raise (ColumnDoesNotExist "nickname" "people"))
  /\ (forall B : PyBuiltins,
        insert_dynamic_row tenant_db "tags" [("colour", PyStr "red")]
        = Raise (ColumnDoesNotExist "colour" "tags")).
Proof.
  split; intros B.
  - apply (unknown_column_is_refused tenant_db "people" people
             [("name", PyStr "Ada")] [("age", PyInt 3)] "nickname" (PyStr "x")).
    + reflexivity.
    + intros k [<-|[]]. simpl. tauto.
    + simpl. intros [Hc|[Hc|[Hc|[]]]]; discriminate.
  - apply (unknown_column_is_refused tenant_db "tags" tags [] [] "colour" (PyStr "red")).
    + reflexivity.
    + intros k [].
    + simpl. intros [Hc|[Hc|[]]]; discriminate.
Defined.

(** X18.  When no key of the payload is an auto-increment primary key,
    a returned statement binds its arguments: the placeholders are
    [$1 .. $n] for its [n] values, one value per payload key, and the
    column list is the payload keys, quoted, in payload order. *)
Theorem statement_binds_without_skipped_key `{PyBuiltins} (db : Catalog)
    (table_name : string) (columns : list ColumnInfo)
    (payload_dict : list (string * PyValue)) (st : InsertStmt) :
  get_table_columns db table_name = Return columns ->
  (forall k info, In k (map fst payload_dict) -> column_map columns !! k = Some info ->
                  is_auto_increment info = false) ->
  insert_dynamic_row db table_name payload_dict = Return st ->
  parameters_bound st = true
  /\ insert_columns st = map quoted (map fst payload_dict)
  /\ List.length (insert_values st) = List.length payload_dict
  /\ into st = table_name.
Proof.
  intros Hcols Hnone Hst.
  apply insert_returns in Hst as (columns' & Hcols' & Hprep & _ & Hinto).
  rewrite Hcols in Hcols'. injection Hcols' as <-.
  destruct (prepare_shape _ _ _ _ _ _ _ _ _ Hprep) as (Hc & Hv & _).
  destruct (prepare_numbering _ _ _ _ _ _ _ _ _ Hnone Hprep) as (Hp & Hkeys).
  rewrite Hkeys in Hc, Hv. rewrite length_map in Hv. simpl in Hc, Hv, Hp.
  split; [|by split].
  unfold parameters_bound. apply bool_decide_eq_true_2.
  rewrite Hp, Hv. rewrite <- seq_shift, map_map. apply map_ext. intros j.
  unfold placeholder. f_equal. f_equal. lia.
Qed.

Lemma statement_binds_without_skipped_key_witness :
  (forall (B : PyBuiltins) st,
     insert_dynamic_row tenant_db "people" [("name", PyStr "Ada"); ("active", PyBool true)]
     = Return st -> parameters_bound st = true)
  /\ (forall (B : PyBuiltins) st,
        insert_dynamic_row tenant_db "people"
          [("name", PyStr "Ada"); ("active", PyBool true)]
        = Return st -> insert_columns st = [quoted "name"; quoted "active"]).
Proof.
  assert (Hnone : forall k info,
            In k (map fst [("name", PyStr "Ada"); ("active", PyBool true)]) ->
            column_map people !! k = Some info -> is_auto_increment info = false).
  { intros k info [<-|[<-|[]]] Hinfo; vm_compute in Hinfo;
      injection Hinfo as <-; reflexivity. }
  split; intros B st Hst.
  - exact (proj1 (statement_binds_without_skipped_key tenant_db "people" people _ st
                    eq_refl Hnone Hst)).
  - exact (proj1 (proj2 (statement_binds_without_skipped_key tenant_db "people" people
                           _ st eq_refl Hnone Hst))).
Defined.

(** X19.  The text of the statement does not depend on the values of the
    payload: two payloads with the same keys in the same order, when both
    are accepted, give the same column list, the same placeholders and
    the same query text. *)
Theorem statement_text_ignores_values `{PyBuiltins} (db : Catalog)
    (table_name : string) (payload1 payload2 : list (string * PyValue))
    (st1 st2 : InsertStmt) :
  map fst payload1 = map fst payload2 ->
  insert_dynamic_row db table_name payload1 = Return st1 ->
  insert_dynamic_row db table_name payload2 = Return st2 ->
  insert_columns st1 = insert_columns st2
  /\ placeholders st1 = placeholders st2
  /\ insert_query st1 = insert_query st2.
Proof.
  intros Hkeys Hst1 Hst2.
  apply insert_returns in Hst1 as (columns1 & Hcols1 & Hprep1 & _ & Hinto1).
  apply insert_returns in Hst2 as (columns2 & Hcols2 & Hprep2 & _ & Hinto2).
  rewrite Hcols1 in Hcols2. injection Hcols2 as <-.
  destruct (prepare_text _ _ _ _ _ _ _ _ _ _ _ _ _ _ Hkeys Hprep1 Hprep2) as [Hc Hp].
  split; [done|]. split; [done|].
  unfold insert_query. by rewrite Hc, Hp, Hinto1, Hinto2.
Qed.

Lemma statement_text_ignores_values_witness :
  (forall B : PyBuiltins,
     insert_query {| into := "people"; insert_columns := [quoted "name"];
                     placeholders := ["$1"]; insert_values := [PyStr "Ada"] |}
     = insert_query {| into := "people"; insert_columns := [quoted "name"];
                       placeholders := ["$1"];
                       insert_values := [PyStr "x'); DROP TABLE people; --"] |})
  /\ (forall B : PyBuiltins,
        insert_dynamic_row tenant_db "people" [("name", PyStr "x'); DROP TABLE people; --")]
        = Return {| into := "people"; insert_columns := [quoted "name"];
                    placeholders := ["$1"];
                    insert_values := [PyStr "x'); DROP TABLE people; --"] |}).
Proof.
  split; intros B.
  - exact (proj2 (proj2 (statement_text_ignores_values tenant_db "people"
                           [("name", PyStr "Ada")]
                           [("name", PyStr "x'); DROP TABLE people; --")]
                           _ _ eq_refl eq_refl eq_refl))).
  - reflexivity.
Defined.

Lemma filter_length_le {A} (f : A -> bool) (l : list A) :
  (List.length (List.filter f l) <= List.length l)%nat.
Proof.
  induction l as [|a l IH]; simpl; [lia|]. destruct (f a); simpl; lia.
Qed.

(** X20.  Every statement the insert builds has at least one column and
    as many values and placeholders as columns, never more than the
    payload has keys, and each column is a payload key between double
    quotes; so the empty payload never yields a statement. *)
Theorem statements_are_aligned `{PyBuiltins} (db : Catalog) (table_name : string)
    (payload_dict : list (string * PyValue)) (st : InsertStmt) :
  insert_dynamic_row db table_name payload_dict = Return st ->
  List.length (insert_values st) = List.length (insert_columns st)
  /\ List.length (placeholders st) = List.length (insert_columns st)
  /\ (1 <= List.length (insert_columns st) <= List.length payload_dict)%nat
  /\ (forall c, In c (insert_columns st) ->
                exists k, In k (map fst payload_dict) /\ c = quoted k)
  /\ payload_dict <> [].
Proof.
  intros Hst. apply insert_returns in Hst as (columns & _ & Hprep & Hne & _).
  destruct (prepare_shape _ _ _ _ _ _ _ _ _ Hprep) as (Hc & Hv & Hp).
  simpl in Hc, Hv, Hp.
  pose proof (filter_length_le
                (fun col_name =>
                   match column_map columns !! col_name with
                   | Some column_info => negb (is_auto_increment column_info)
                   | None => false
                   end) (map fst payload_dict)) as Hle.
  fold (inserted_keys (column_map columns) payload_dict) in Hle.
  rewrite length_map in Hle.
  assert (Hlen : List.length (insert_columns st)
                 = List.length (inserted_keys (column_map columns) payload_dict)).
  { by rewrite Hc, length_map. }
  assert (Hpos : (1 <= List.length (insert_columns st))%nat).
  { destruct (insert_columns st); [done|]. simpl. lia. }
  split; [lia|]. split; [lia|]. split; [lia|]. split.
  - intros c Hin. rewrite Hc in Hin. apply in_map_iff in Hin as (k & <- & Hk).
    exists k. split; [|done]. unfold inserted_keys in Hk.
    by apply filter_In in Hk as [Hk _].
  - intros ->. unfold inserted_keys in Hle, Hlen. simpl in Hle, Hlen. lia.
Qed.

Lemma statements_are_aligned_witness :
  (forall B : PyBuiltins,
     List.length [PyStr "Ada"] = List.length [quoted "name"])
  /\ (forall B : PyBuiltins,
        [("id", PyInt 5); ("name", PyStr "Ada")] <> ([] : list (string * PyValue))).
Proof.
  split; intros B.
  - exact (proj1 (statements_are_aligned tenant_db "people"
                    [("id", PyInt 5); ("name", PyStr "Ada")]
                    {| into := "people"; insert_columns := [quoted "name"];
                       placeholders := ["$2"]; insert_values := [PyStr "Ada"] |}
                    eq_refl)).
  - exact (proj2 (proj2 (proj2 (proj2 (statements_are_aligned tenant_db "people"
                    [("id", PyInt 5); ("name", PyStr "Ada")]
                    {| into := "people"; insert_columns := [quoted "name"];
                       placeholders := ["$2"]; insert_values := [PyStr "Ada"] |}
                    eq_refl))))).
Defined.

(** X21.  Outside the numeric column types the coercion never raises and
    coercing its result again changes nothing; and null stays null for
    every column type, numeric ones included. *)
Theorem coercion_is_idempotent `{PyBuiltins} (value : PyValue) (pg_type : string) :
  convert_python_to_postgres_value PyNone pg_type = Return PyNone
  /\ (is_numeric_type pg_type = false ->
      exists converted,
        convert_python_to_postgres_value value pg_type = Return converted
        /\ convert_python_to_postgres_value converted pg_type = Return converted).
Proof.
  split; [reflexivity|].
  unfold is_numeric_type. intros Hnum. apply orb_false_iff in Hnum as [Hint Hfloat].
  unfold convert_python_to_postgres_value.
  cbv zeta. rewrite Hint, Hfloat.
  destruct (String.eqb pg_type "boolean");
    [|destruct (in_list pg_type ["json"; "jsonb"]);
      [|destruct (in_list pg_type ["timestamp"; "timestamptz"; "date"; "time"])]];
    destruct value as [|b|z|f|s|l|d]; eexists; (split; [reflexivity|reflexivity]).
Qed.

Lemma coercion_is_idempotent_witness :
  (forall B : PyBuiltins,
     exists converted,
       convert_python_to_postgres_value (PyInt 42) "text" = Return converted
       /\ convert_python_to_postgres_value converted "text" = Return converted)
  /\ (forall B : PyBuiltins,
        exists converted,
          convert_python_to_postgres_value (PyStr "Yes") "boolean" = Return converted
          /\ convert_python_to_postgres_value converted "boolean" = Return converted).
Proof.
  split; intros B.
  - exact (proj2 (coercion_is_idempotent (PyInt 42) "text") eq_refl).
  - exact (proj2 (coercion_is_idempotent (PyStr "Yes") "boolean") eq_refl).
Defined.

End RowStatementFacts.


(** ** The registry of subscribers *)

Module RegistryFacts.
Import WebSocketManager Registry.

Section DictFacts.
Context {K V : Type} `{EqDecision K}.
Implicit Types (d : list (K * V)) (k : K) (v : V).

Lemma dict_get_set_eq d k v : dict_get k (dict_set k v d) = Some v.
Proof.
  induction d as [|[k' v'] d IH]; simpl.
  - by rewrite decide_True.
  - destruct (decide (k' = k)) as [->|Hne]; simpl.
    + by rewrite decide_True.
    + by rewrite decide_False.
Qed.

Lemma dict_get_set_ne d k k' v : k <> k' -> dict_get k' (dict_set k v d) = dict_get k' d.
Proof.
  intros Hne. induction d as [|[k0 v0] d IH]; simpl.
  - by rewrite decide_False.
  - destruct (decide (k0 = k)) as [->|Hne0]; simpl.
    + by rewrite !decide_False.
    + destruct (decide (k0 = k')); [done|]. exact IH.
Qed.

Lemma dict_get_app_notin d1 d2 k :
  ~ In k (map fst d1) -> dict_get k (d1 ++ d2) = dict_get k d2.
Proof.
  induction d1 as [|[k' v'] d1 IH]; simpl; [done|].
  intros Hnin. rewrite decide_False by tauto. apply IH. tauto.
Qed.

Lemma dict_set_app_notin d1 d2 k v v0 :
  ~ In k (map fst d1) -> dict_set k v (d1 ++ (k, v0) :: d2) = (d1 ++ (k, v) :: d2)%list.
Proof.
  induction d1 as [|[k' v'] d1 IH]; simpl.
  - intros _. by rewrite decide_True.
  - intros Hnin. rewrite decide_False by tauto. f_equal. apply IH. tauto.
Qed.

Lemma dict_del_app_notin d1 d2 k v0 :
  ~ In k (map fst d1) -> dict_del k (d1 ++ (k, v0) :: d2) = (d1 ++ d2)%list.
Proof.
  induction d1 as [|[k' v'] d1 IH]; simpl.
  - intros _. by rewrite decide_True.
  - intros Hnin. rewrite decide_False by tauto. f_equal. apply IH. tauto.
Qed.

Lemma dict_set_keys d k v :
  map fst (dict_set k v d)
  = if bool_decide (k ∈ map fst d) then map fst d else (map fst d ++ [k])%list.
Proof.
  induction d as [|[k' v'] d IH]; simpl; [done|].
  - destruct (decide (k' = k)) as [->|Hne]; simpl.
    + rewrite bool_decide_eq_true_2; [done|]. apply elem_of_cons. by left.
    + rewrite IH. destruct (bool_decide (k ∈ map fst d)) eqn:Hin.
      * apply bool_decide_eq_true_1 in Hin.
        rewrite bool_decide_eq_true_2; [done|]. apply elem_of_cons. by right.
      * apply bool_decide_eq_false_1 in Hin.
        rewrite bool_decide_eq_false_2; [done|].
        intros [Heq|Hel]%elem_of_cons; [by subst|done].
Qed.

Lemma dict_set_NoDup d k v : NoDup (map fst d) -> NoDup (map fst (dict_set k v d)).
Proof.
  intros Hnd. rewrite dict_set_keys.
  destruct (bool_decide (k ∈ map fst d)) eqn:Hin; [done|].
  apply bool_decide_eq_false_1 in Hin. apply NoDup_app. split; [done|]. split.
  - intros x Hx Hk. apply list_elem_of_singleton in Hk. by subst.
  - apply NoDup_singleton.
Qed.

Lemma dict_set_Forall (P : K * V -> Prop) d k v :
  P (k, v) -> Forall P d -> Forall P (dict_set k v d).
Proof.
  intros Hkv. induction d as [|[k' v'] d IH]; simpl; intros Hd.
  - by constructor.
  - apply Forall_cons in Hd as [Hh Ht]. destruct (decide (k' = k)).
    + by constructor.
    + constructor; [done|]. by apply IH.
Qed.

Lemma dict_get_In d k v : dict_get k d = Some v -> In (k, v) d.
Proof.
  induction d as [|[k' v'] d IH]; simpl; [done|].
  destruct (decide (k' = k)) as [->|Hne].
  - intros [= ->]. by left.
  - intros Hg. right. by apply IH.
Qed.

Lemma dict_set_nonempty d k v : dict_set k v d <> [].
Proof. destruct d as [|[k' v'] d]; simpl; [done|]. by destruct (decide (k' = k)). Qed.

End DictFacts.

(** X22.  After [connect] the connection is a subscriber of that tenant
    and table and its user is recorded; the set of that tenant and table
    gains exactly this connection, and the sets of every other tenant and
    table are as before. *)
Theorem connect_subscribes (st : State) (websocket : WebSocket) (project_id : Z)
    (table_name : string) (user : Z) (listener_started : bool) :
  let st' := connect st websocket project_id table_name user listener_started in
  subscribers st' project_id table_name
  = subscribers st project_id table_name ∪ {[websocket]}
  /\ connection_users st' !! websocket = Some user
  /\ (forall project_id' table_name',
        (project_id', table_name') <> (project_id, table_name) ->
        subscribers st' project_id' table_name'
        = subscribers st project_id' table_name').
Proof.
  intros st'. unfold st', connect, subscribers. cbn [connections connection_users].
  split; [|split].
  - rewrite !dict_get_set_eq.
    destruct (dict_get project_id (connections st)) as [tables|]; [|done].
    by destruct (dict_get table_name tables).
  - apply lookup_insert_eq.
  - intros project_id' table_name' Hne.
    destruct (decide (project_id = project_id')) as [<-|Hp].
    + rewrite dict_get_set_eq.
      assert (table_name <> table_name') as Ht by congruence.
      rewrite dict_get_set_ne by done.
      by destruct (dict_get project_id (connections st)).
    + by rewrite dict_get_set_ne.
Qed.

Lemma gained_member (subs : gset nat) (websocket : WebSocket) :
  subs ∪ {[websocket]} <> ∅.
Proof.
  intros Hempty. apply (not_elem_of_empty (C := gset nat) websocket).
  rewrite <- Hempty. apply elem_of_union_r. by apply elem_of_singleton.
Qed.

Lemma connect_keeps_clean (st : State) (websocket : WebSocket) (project_id : Z)
    (table_name : string) (user : Z) (listener_started : bool) :
  clean (connections st) ->
  clean (connections (connect st websocket project_id table_name user listener_started)).
Proof.
  intros [Hnd Hall]. unfold connect. cbn [connections]. split.
  - by apply dict_set_NoDup.
  - apply dict_set_Forall; [|done].
    assert (Htables : forall tables : Tables,
              NoDup (map fst tables) ->
              Forall (fun '(_, connections) => (connections : gset nat) <> ∅) tables ->
              forall subs : gset nat,
              clean_tables (dict_set table_name (subs ∪ {[websocket]}) tables)).
    { intros tables Hnd' Hall' subs. split; [apply dict_set_nonempty|].
      split; [by apply dict_set_NoDup|].
      apply dict_set_Forall; [|done]. apply gained_member. }
    destruct (dict_get project_id (connections st)) as [tables|] eqn:Hget.
    + apply dict_get_In, list_elem_of_In in Hget. rewrite Forall_forall in Hall.
      destruct (Hall _ Hget) as (_ & Hnd' & Hall'). by apply Htables.
    + apply Htables; constructor.
Qed.

(** X23.  Whatever sequence of [connect] calls a fresh manager serves,
    its registry has unique keys, no empty tenant entry and no empty
    subscriber set. *)
Theorem connect_builds_clean_registries (calls : list Call) :
  clean (connections (connect_all calls)).
Proof.
  unfold connect_all.
  assert (Hgen : forall st, clean (connections st) ->
            clean (connections
                     (fold_left (fun st c =>
                        connect st (call_websocket c) (call_project c) (call_table c)
                                (call_user c) (call_listener_started c)) calls st))).
  { induction calls as [|c calls IH]; intros st Hst; simpl; [done|].
    apply IH. by apply connect_keeps_clean. }
  apply Hgen. split; constructor.
Qed.

Lemma keys_apart {K V : Type} (d1 d2 : list (K * V)) (k : K) (v : V) :
  NoDup (map fst (d1 ++ (k, v) :: d2)) -> ~ In k (map fst d1).
Proof.
  rewrite map_app. intros Hnd Hin. apply NoDup_app in Hnd as (_ & Hdis & _).
  apply (Hdis k); [by apply list_elem_of_In|]. simpl. apply elem_of_cons. by left.
Qed.

Lemma size_mismatch_tables (websocket : WebSocket) (used : nat) (pending : list string)
    (tables : Tables) :
  List.length tables <> used ->
  discard_from_tables websocket used pending tables
  = (tables, Some DictChangedSizeDuringIteration).
Proof.
  intros Hne. destruct pending; cbn [discard_from_tables];
    by rewrite (proj2 (Nat.eqb_neq _ _) Hne).
Qed.

Lemma size_mismatch_projects (websocket : WebSocket) (close_raises : gset Z) (used : nat)
    (pending : list Z) (conns : list (Z * Tables)) (listeners : gset Z) :
  List.length conns <> used ->
  discard_from_projects websocket close_raises used pending conns listeners
  = (conns, listeners, Some DictChangedSizeDuringIteration).
Proof.
  intros Hne. destruct pending; cbn [discard_from_projects];
    by rewrite (proj2 (Nat.eqb_neq _ _) Hne).
Qed.

(** The inner loop, started anywhere in a dict with unique keys. *)
Lemma inner_loop (websocket : WebSocket) (rest seen : Tables) :
  NoDup (map fst (seen ++ rest)) ->
  (existsb (fun '(_, connections) => sole websocket connections) rest = false ->
   discard_from_tables websocket (List.length (seen ++ rest)) (map fst rest) (seen ++ rest)
   = ((seen ++ strip websocket rest)%list, None))
  /\ (existsb (fun '(_, connections) => sole websocket connections) rest = true ->
      exists tables',
        discard_from_tables websocket (List.length (seen ++ rest)) (map fst rest)
                            (seen ++ rest)
        = (tables', Some DictChangedSizeDuringIteration)).
Proof.
  revert seen. induction rest as [|[table_name subs] rest IH]; intros seen Hnd.
  - split; [|done]. intros _. cbn [map discard_from_tables strip].
    by rewrite Nat.eqb_refl.
  - cbn [map fst discard_from_tables existsb]. rewrite Nat.eqb_refl. cbn [negb].
    pose proof (keys_apart _ _ _ _ Hnd) as Hfresh.
    rewrite (dict_get_app_notin seen _ table_name Hfresh).
    cbn [dict_get]. rewrite decide_True by done. cbv zeta.
    rewrite (dict_set_app_notin seen rest table_name _ subs Hfresh).
    change (bool_decide (subs ∖ {[websocket]} = ∅)) with (sole websocket subs).
    destruct (sole websocket subs) eqn:Hsole; cbn [orb].
    + split; [done|]. intros _.
      rewrite (dict_del_app_notin seen rest table_name _ Hfresh).
      eexists. apply size_mismatch_tables. rewrite !length_app. simpl. lia.
    + assert (Hshift : (seen ++ (table_name, subs ∖ {[websocket]}) :: rest)%list
                       = ((seen ++ [(table_name, subs ∖ {[websocket]})]) ++ rest)%list)
        by (by rewrite <- app_assoc).
      assert (Hlen : List.length (seen ++ (table_name, subs) :: rest)
                     = List.length ((seen ++ [(table_name, subs ∖ {[websocket]})]) ++ rest)).
      { rewrite !length_app. simpl. lia. }
      rewrite Hshift, Hlen.
      destruct (IH (seen ++ [(table_name, subs ∖ {[websocket]})])%list) as [Hok Hraise].
      { rewrite <- app_assoc. simpl.
        rewrite map_app in Hnd |- *. exact Hnd. }
      split.
      * intros Hnone. rewrite (Hok Hnone). by rewrite <- app_assoc.
      * exact Hraise.
Qed.

Lemma strip_nonempty (websocket : WebSocket) (tables : Tables) :
  tables <> [] -> strip websocket tables <> [].
Proof. by destruct tables. Qed.

(** The outer loop, started anywhere in a clean registry. *)
Lemma outer_loop (websocket : WebSocket) (close_raises : gset Z) (listeners : gset Z)
    (rest seen : list (Z * Tables)) :
  NoDup (map fst (seen ++ rest)) ->
  Forall (fun '(_, tables) => clean_tables tables) rest ->
  (last_subscriber_somewhere websocket rest = false ->
   discard_from_projects websocket close_raises (List.length (seen ++ rest))
                         (map fst rest) (seen ++ rest) listeners
   = ((seen ++ without websocket rest)%list, listeners, None))
  /\ (last_subscriber_somewhere websocket rest = true ->
      exists conns' listeners',
        discard_from_projects websocket close_raises (List.length (seen ++ rest))
                              (map fst rest) (seen ++ rest) listeners
        = (conns', listeners', Some DictChangedSizeDuringIteration)).
Proof.
  revert seen. induction rest as [|[project_id tables] rest IH]; intros seen Hnd Hclean.
  - split; [|done]. intros _. cbn [map discard_from_projects without].
    by rewrite Nat.eqb_refl.
  - apply Forall_cons in Hclean as [(Hne & Hkeys & _) Hclean].
    cbn [map fst discard_from_projects last_subscriber_somewhere existsb].
    rewrite Nat.eqb_refl. cbn [negb].
    pose proof (keys_apart _ _ _ _ Hnd) as Hfresh.
    rewrite (dict_get_app_notin seen _ project_id Hfresh).
    cbn [dict_get]. rewrite decide_True by done.
    destruct (inner_loop websocket tables [] Hkeys) as [Hok Hraise].
    cbn [app] in Hok, Hraise.
    destruct (existsb (fun '(_, connections) => sole websocket connections) tables)
      eqn:Hsole; cbn [orb].
    + split; [done|]. intros _. destruct (Hraise eq_refl) as [tables' ->].
      by eexists _, _.
    + rewrite (Hok eq_refl).
      rewrite (dict_set_app_notin seen rest project_id _ tables Hfresh).
      pose proof (strip_nonempty websocket tables Hne) as Hstrip.
      destruct (strip websocket tables) as [|entry stripped] eqn:Hs; [done|].
      rewrite <- Hs.
      assert (Hshift : (seen ++ (project_id, strip websocket tables) :: rest)%list
                       = ((seen ++ [(project_id, strip websocket tables)]) ++ rest)%list)
        by (by rewrite <- app_assoc).
      assert (Hlen : List.length (seen ++ (project_id, tables) :: rest)
                     = List.length ((seen ++ [(project_id, strip websocket tables)]) ++ rest)).
      { rewrite !length_app. simpl. lia. }
      rewrite Hshift, Hlen.
      destruct (IH (seen ++ [(project_id, strip websocket tables)])%list) as [Hok' Hraise'].
      { rewrite <- app_assoc. simpl. rewrite map_app in Hnd |- *. exact Hnd. }
      { exact Hclean. }
      split.
      * intros Hnone. rewrite (Hok' Hnone). by rewrite <- app_assoc.
      * exact Hraise'.
Qed.

Lemma dict_get_strip (websocket : WebSocket) (tables : Tables) (table_name : string) :
  dict_get table_name (strip websocket tables)
  = (fun connections => connections ∖ {[websocket]}) <$> dict_get table_name tables.
Proof.
  induction tables as [|[t subs] tables IH]; simpl; [done|].
  by destruct (decide (t = table_name)).
Qed.

Lemma dict_get_without (websocket : WebSocket) (conns : list (Z * Tables))
    (project_id : Z) :
  dict_get project_id (without websocket conns)
  = strip websocket <$> dict_get project_id conns.
Proof.
  induction conns as [|[p tables] conns IH]; simpl; [done|].
  by destruct (decide (p = project_id)).
Qed.

Lemma disconnect_raises (st : State) (websocket : WebSocket) (close_raises : gset Z) :
  clean (connections st) ->
  last_subscriber_somewhere websocket (connections st) = true ->
  snd (disconnect st websocket close_raises) = Some DictChangedSizeDuringIteration.
Proof.
  intros [Hnd Hclean] Hlast.
  destruct (outer_loop websocket close_raises (pg_listeners st) (connections st) []
              Hnd Hclean) as [_ Hraise].
  cbn [app] in Hraise. unfold disconnect.
  by destruct (Hraise Hlast) as (conns' & listeners' & ->).
Qed.

Lemma disconnect_completes (st : State) (websocket : WebSocket) (close_raises : gset Z) :
  clean (connections st) ->
  last_subscriber_somewhere websocket (connections st) = false ->
  disconnect st websocket close_raises
  = ({| connections := without websocket (connections st);
        connection_users := delete websocket (connection_users st);
        pg_listeners := pg_listeners st |}, None).
Proof.
  intros [Hnd Hclean] Hnone.
  destruct (outer_loop websocket close_raises (pg_listeners st) (connections st) []
              Hnd Hclean) as [Hok _].
  cbn [app] in Hok. unfold disconnect. by rewrite (Hok Hnone).
Qed.

Lemma subscribers_without (st st' : State) (websocket : WebSocket) (project_id : Z)
    (table_name : string) :
  connections st' = without websocket (connections st) ->
  subscribers st' project_id table_name
  = subscribers st project_id table_name ∖ {[websocket]}.
Proof.
  intros Hconns. unfold subscribers. rewrite Hconns, dict_get_without.
  destruct (dict_get project_id (connections st)) as [tables|];
    cbn [fmap option_fmap option_map].
  - rewrite dict_get_strip.
    destruct (dict_get table_name tables); cbn [fmap option_fmap option_map]; [done|].
    symmetry. apply difference_disjoint_L, disjoint_empty_l.
  - symmetry. apply difference_disjoint_L, disjoint_empty_l.
Qed.

(** X24.  On a registry as [connect] builds it, [disconnect] raises
    exactly when the connection is the last subscriber of some table;
    when it is not, the call runs to the end, removes the connection from
    every subscriber set and from the user table, and changes nothing
    else. *)
Theorem disconnect_on_clean_registry (st : State) (websocket : WebSocket)
    (close_raises : gset Z) :
  clean (connections st) ->
  (last_subscriber_somewhere websocket (connections st) = true ->
   snd (disconnect st websocket close_raises) = Some DictChangedSizeDuringIteration)
  /\ (last_subscriber_somewhere websocket (connections st) = false ->
      disconnect st websocket close_raises
      = ({| connections := without websocket (connections st);
            connection_users := delete websocket (connection_users st);
            pg_listeners := pg_listeners st |}, None)
      /\ forall project_id table_name,
           subscribers (fst (disconnect st websocket close_raises)) project_id table_name
           = subscribers st project_id table_name ∖ {[websocket]}).
Proof.
  intros Hclean. split.
  - by apply disconnect_raises.
  - intros Hnone. split; [by apply disconnect_completes|].
    intros project_id table_name. apply subscribers_without.
    by rewrite (disconnect_completes st websocket close_raises Hclean Hnone).
Qed.

Lemma shared_table_is_clean : clean (connections shared_table).
Proof.
  unfold shared_table, connect_all. cbn [fold_left].
  apply connect_keeps_clean, connect_keeps_clean. split; constructor.
Qed.

Lemma disconnect_on_clean_registry_witness :
  snd (disconnect shared_table 1%nat ∅) = None
  /\ subscribers (fst (disconnect shared_table 1%nat ∅)) 1 "orders"
     = subscribers shared_table 1 "orders" ∖ {[ 1%nat ]}.
Proof.
  destruct (proj2 (disconnect_on_clean_registry shared_table 1%nat ∅ shared_table_is_clean)
              ltac:(vm_compute; reflexivity)) as [Hdone Hsubs].
  split.
  - by rewrite Hdone.
  - apply Hsubs.
Defined.

Lemma disconnect_all_nil (st : State) (close_raises : gset Z) :
  disconnect_all st [] close_raises = (st, None).
Proof. reflexivity. Qed.

Lemma filter_none {A} (f : A -> bool) (l : list A) :
  (forall x, In x l -> f x = false) -> List.filter f l = [].
Proof.
  induction l as [|a l IH]; intros Hall; simpl; [done|].
  rewrite (Hall a) by (by left). apply IH. intros x Hx. apply Hall. by right.
Qed.

(** X25.  A broadcast reaches exactly the subscribers of that tenant and
    table whose send succeeds, and no connection of another tenant or
    table; when no send fails, and when nobody is subscribed, it leaves
    the registry as it was and raises nothing. *)
Theorem broadcast_reaches_its_subscribers (st : State) (project_id : Z)
    (table_name : string) (send_fails : gset nat) (close_raises : gset Z) :
  (forall websocket,
      In websocket (snd (fst (broadcast_table_update st project_id table_name
                                send_fails close_raises)))
      <-> websocket ∈ subscribers st project_id table_name /\ websocket ∉ send_fails)
  /\ ((forall websocket, websocket ∈ subscribers st project_id table_name ->
                         websocket ∉ send_fails) ->
      fst (fst (broadcast_table_update st project_id table_name send_fails close_raises))
      = st
      /\ snd (broadcast_table_update st project_id table_name send_fails close_raises)
         = None).
Proof.
  unfold broadcast_table_update, subscribers.
  destruct (dict_get project_id (connections st)) as [tables|].
  - destruct (dict_get table_name tables) as [subs|].
    + cbv zeta.
      destruct (disconnect_all st _ close_raises) as [st' err] eqn:Hall.
      cbn [fst snd]. split.
      * intros websocket. rewrite filter_In, <- list_elem_of_In, elem_of_elements.
        rewrite negb_true_iff, bool_decide_eq_false. done.
      * intros Hfine. rewrite filter_none in Hall.
        -- rewrite disconnect_all_nil in Hall. by injection Hall as <- <-.
        -- intros websocket Hin. apply bool_decide_eq_false_2, Hfine.
           by apply elem_of_elements, list_elem_of_In.
    + cbn [fst snd]. split; [|done]. intros websocket. split; [done|].
      intros [Hin _]. by apply not_elem_of_empty in Hin.
  - cbn [fst snd]. split; [|done]. intros websocket. split; [done|].
    intros [Hin _]. by apply not_elem_of_empty in Hin.
Qed.

Lemma broadcast_reaches_its_subscribers_witness :
  fst (fst (broadcast_table_update shared_table 1 "orders" ∅ ∅)) = shared_table
  /\ snd (broadcast_table_update shared_table 1 "orders" ∅ ∅) = None.
Proof.
  apply (broadcast_reaches_its_subscribers shared_table 1 "orders" ∅ ∅).
  intros websocket _. apply not_elem_of_empty.
Defined.

Lemma filter_all {A} (f : A -> bool) (l : list A) :
  (forall x, In x l -> f x = true) -> List.filter f l = l.
Proof.
  induction l as [|a l IH]; intros Hall; simpl; [done|].
  rewrite (Hall a) by (by left). f_equal. apply IH. intros x Hx. apply Hall. by right.
Qed.

Lemma strip_keys (websocket : WebSocket) (tables : Tables) :
  map fst (strip websocket tables) = map fst tables.
Proof. induction tables as [|[t subs] tables IH]; simpl; [done|]. by rewrite IH. Qed.

Lemma without_keys (websocket : WebSocket) (conns : list (Z * Tables)) :
  map fst (without websocket conns) = map fst conns.
Proof. induction conns as [|[p tables] conns IH]; simpl; [done|]. by rewrite IH. Qed.

Lemma strip_clean (websocket : WebSocket) (tables : Tables) :
  clean_tables tables ->
  existsb (fun '(_, connections) => sole websocket connections) tables = false ->
  clean_tables (strip websocket tables).
Proof.
  intros (Hne & Hnd & Hall) Hnone. split; [by apply strip_nonempty|].
  split; [by rewrite strip_keys|]. clear Hne Hnd.
  induction tables as [|[t subs] tables IH]; simpl; [constructor|].
  apply Forall_cons in Hall as [_ Hall]. simpl in Hnone.
  apply orb_false_elim in Hnone as [Hsole Hnone]. constructor.
  - by apply bool_decide_eq_false_1 in Hsole.
  - by apply IH.
Qed.

Lemma without_clean (websocket : WebSocket) (conns : list (Z * Tables)) :
  clean conns -> last_subscriber_somewhere websocket conns = false ->
  clean (without websocket conns).
Proof.
  intros [Hnd Hall] Hnone. split; [by rewrite without_keys|]. clear Hnd.
  induction conns as [|[p tables] conns IH]; simpl; [constructor|].
  apply Forall_cons in Hall as [Hclean Hall].
  unfold last_subscriber_somewhere in Hnone. simpl in Hnone.
  apply orb_false_elim in Hnone as [Hhere Hnone]. constructor.
  - by apply strip_clean.
  - by apply IH.
Qed.

Lemma sole_subscriber_is_last (st : State) (project_id : Z) (table_name : string)
    (websocket : WebSocket) :
  subscribers st project_id table_name <> ∅ ->
  sole websocket (subscribers st project_id table_name) = true ->
  last_subscriber_somewhere websocket (connections st) = true.
Proof.
  unfold subscribers.
  destruct (dict_get project_id (connections st)) as [tables|] eqn:Hp; [|done].
  destruct (dict_get table_name tables) as [subs|] eqn:Ht; [|done].
  intros _ Hsole. unfold last_subscriber_somewhere. apply existsb_exists.
  exists (project_id, tables). split; [by apply dict_get_In|].
  apply existsb_exists. exists (table_name, subs). split; [by apply dict_get_In|done].
Qed.

(** Disconnecting every subscriber of one table, in any order, raises at
    the latest when the last of them is reached. *)
Lemma disconnect_all_raises (project_id : Z) (table_name : string) (close_raises : gset Z)
    (disconnected : list WebSocket) :
  forall st : State,
    clean (connections st) -> NoDup disconnected -> disconnected <> [] ->
    subscribers st project_id table_name = list_to_set disconnected ->
    snd (disconnect_all st disconnected close_raises)
    = Some DictChangedSizeDuringIteration.
Proof.
  induction disconnected as [|websocket rest IH]; intros st Hclean Hnd Hne Hsubs; [done|].
  cbn [disconnect_all]. apply NoDup_cons in Hnd as [Hnotin Hnd].
  destruct (last_subscriber_somewhere websocket (connections st)) eqn:Hlast.
  - pose proof (disconnect_raises st websocket close_raises Hclean Hlast) as Hraise.
    destruct (disconnect st websocket close_raises) as [st' [[]|]]; [done|].
    by cbn in Hraise.
  - rewrite (disconnect_completes st websocket close_raises Hclean Hlast).
    destruct (decide (rest = [])) as [->|Hrest].
    + exfalso. rewrite list_to_set_cons, list_to_set_nil, union_empty_r_L in Hsubs.
      assert (Htrue : last_subscriber_somewhere websocket (connections st) = true).
      { apply (sole_subscriber_is_last st project_id table_name).
        - rewrite Hsubs. intros Hempty.
          apply (not_elem_of_empty (C := gset nat) websocket).
          rewrite <- Hempty. by apply elem_of_singleton.
        - rewrite Hsubs. unfold sole. apply bool_decide_eq_true_2.
          apply difference_diag_L. }
      congruence.
    + apply IH; [| done | done |].
      * cbn [connections]. by apply without_clean.
      * rewrite (subscribers_without st _ websocket) by done. rewrite Hsubs.
        apply set_eq. intros x.
        rewrite elem_of_difference, list_to_set_cons, elem_of_union, elem_of_singleton,
          elem_of_list_to_set.
        split.
        -- intros [[->|Hin] Hx]; done.
        -- intros Hin. split; [by right|]. intros ->. done.
Qed.

(** X26.  On a registry as [connect] builds it, a broadcast to a table
    with subscribers whose sends all fail does not clean up quietly: the
    disconnects it runs end in the dict iterator's RuntimeError, which
    leaves the method. *)
Theorem broadcast_raises_when_every_send_fails (st : State) (project_id : Z)
    (table_name : string) (send_fails : gset nat) (close_raises : gset Z) :
  clean (connections st) ->
  subscribers st project_id table_name <> ∅ ->
  subscribers st project_id table_name ⊆ send_fails ->
  snd (broadcast_table_update st project_id table_name send_fails close_raises)
  = Some DictChangedSizeDuringIteration.
Proof.
  intros Hclean Hne Hall.
  destruct (dict_get project_id (connections st)) as [tables|] eqn:Hp;
    [|exfalso; apply Hne; unfold subscribers; by rewrite Hp].
  destruct (dict_get table_name tables) as [subs|] eqn:Ht;
    [|exfalso; apply Hne; unfold subscribers; by rewrite Hp, Ht].
  assert (Hs : subscribers st project_id table_name = subs)
    by (unfold subscribers; by rewrite Hp, Ht).
  unfold broadcast_table_update. rewrite Hp, Ht. cbv zeta.
  rewrite (filter_all (fun websocket => bool_decide (websocket ∈ send_fails))).
  - pose proof (disconnect_all_raises project_id table_name close_raises (elements subs)
                  st Hclean (NoDup_elements subs)) as Hraise.
    destruct (disconnect_all st (elements subs) close_raises) as [st' err].
    cbn [snd] in *. apply Hraise.
    + intros Hnil. apply Hne. rewrite Hs. by apply elements_empty_inv, leibniz_equiv in Hnil.
    + by rewrite Hs, list_to_set_elements_L.
  - intros websocket Hin. apply bool_decide_eq_true_2, Hall. rewrite Hs.
    by apply elem_of_elements, list_elem_of_In.
Qed.

Lemma broadcast_raises_when_every_send_fails_witness :
  snd (broadcast_table_update shared_table 1 "orders" {[ 1%nat; 2%nat ]} ∅)
  = Some DictChangedSizeDuringIteration.
Proof.
  apply (broadcast_raises_when_every_send_fails shared_table 1 "orders"
           {[ 1%nat; 2%nat ]} ∅ shared_table_is_clean).
  - apply (bool_decide_unpack _). vm_compute. exact I.
  - apply (bool_decide_unpack _). vm_compute. exact I.
Defined.

Section Sums.
Context {K V : Type} `{EqDecision K}.

Lemma dict_set_sum (f : V -> nat) (d : list (K * V)) (k : K) (v : V) :
  (sum_list_with (fun item => f (snd item)) (dict_set k v d)
   + from_option f 0 (dict_get k d)
   = sum_list_with (fun item => f (snd item)) d + f v)%nat.
Proof.
  induction d as [|[k' v'] d IH]; simpl; [lia|].
  destruct (decide (k' = k)); simpl; lia.
Qed.

Lemma dict_set_notin (d : list (K * V)) (k : K) (v : V) :
  ~ In k (map fst d) -> dict_set k v d = (d ++ [(k, v)])%list.
Proof.
  induction d as [|[k' v'] d IH]; simpl; [done|].
  intros Hnin. rewrite decide_False by tauto. f_equal. apply IH. tauto.
Qed.

End Sums.

Lemma count_tables_total (items : Tables) (table_stats : list (string * nat)) (n : nat) :
  snd (count_tables items table_stats n) = (n + subscriptions_in items)%nat.
Proof.
  revert table_stats n. induction items as [|[t subs] items IH]; intros acc n;
    cbn [count_tables]; unfold subscriptions_in; simpl.
  - lia.
  - cbv zeta. rewrite IH. unfold subscriptions_in. lia.
Qed.

Lemma count_projects_total (items : list (Z * Tables))
    (project_stats : list (Z * ProjectStats)) (n : nat) :
  snd (count_projects items project_stats n) = (n + subscriptions items)%nat.
Proof.
  revert project_stats n. induction items as [|[p tables] items IH]; intros acc n;
    cbn [count_projects]; unfold subscriptions; simpl.
  - lia.
  - pose proof (count_tables_total tables [] 0) as Htotal.
    destruct (count_tables tables [] 0) as [table_stats project_total].
    cbn [snd] in Htotal. rewrite IH. unfold subscriptions. lia.
Qed.

Lemma stats_total (st : State) :
  total_connections (get_connection_stats st) = subscriptions (connections st).
Proof.
  unfold get_connection_stats.
  pose proof (count_projects_total (connections st) [] 0) as Htotal.
  destruct (count_projects (connections st) [] 0) as [project_stats n].
  cbn [snd] in Htotal. cbn [total_connections]. lia.
Qed.

Lemma connect_adds_a_subscription (st : State) (websocket : WebSocket) (project_id : Z)
    (table_name : string) (user : Z) (listener_started : bool) :
  subscriptions
    (connections (connect st websocket project_id table_name user listener_started))
  = (subscriptions (connections st)
     + if bool_decide (websocket ∈ subscribers st project_id table_name)
       then 0 else 1)%nat.
Proof.
  unfold connect, subscribers, subscriptions. cbn [connections].
  set (tables0 := match dict_get project_id (connections st) with
                  | Some t => t | None => [] end).
  set (subs0 := match dict_get table_name tables0 with
                | Some c => c | None => ∅ end).
  pose proof (dict_set_sum subscriptions_in (connections st) project_id
                (dict_set table_name (subs0 ∪ {[websocket]}) tables0)) as Houter.
  pose proof (dict_set_sum (size : gset nat -> nat) tables0 table_name
                (subs0 ∪ {[websocket]})) as Hinner.
  fold (subscriptions_in tables0) in Hinner.
  fold (subscriptions_in (dict_set table_name (subs0 ∪ {[websocket]}) tables0)) in Hinner.
  assert (Hold : from_option subscriptions_in 0%nat (dict_get project_id (connections st))
                 = subscriptions_in tables0).
  { unfold tables0. by destruct (dict_get project_id (connections st)). }
  assert (Hold' : from_option (size : gset nat -> nat) 0%nat (dict_get table_name tables0)
                  = size subs0).
  { unfold subs0. destruct (dict_get table_name tables0); [done|]. by rewrite size_empty. }
  assert (Hsubs : match dict_get project_id (connections st) with
                  | Some tables =>
                    match dict_get table_name tables with
                    | Some connections => connections
                    | None => ∅
                    end
                  | None => ∅
                  end = subs0).
  { unfold subs0, tables0. by destruct (dict_get project_id (connections st)). }
  rewrite Hsubs. rewrite Hold in Houter. rewrite Hold' in Hinner.
  assert (Hsize : size (subs0 ∪ {[websocket]})
                  = (size subs0 + if bool_decide (websocket ∈ subs0) then 0 else 1)%nat).
  { destruct (bool_decide (websocket ∈ subs0)) eqn:Hin.
    - apply bool_decide_eq_true_1 in Hin.
      rewrite (union_comm_L subs0), (subseteq_union_1_L {[websocket]} subs0); [lia|].
      by apply singleton_subseteq_l.
    - apply bool_decide_eq_false_1 in Hin.
      rewrite size_union, size_singleton; [lia|]. by apply disjoint_singleton_r. }
  lia.
Qed.

(** X27.  The total the statistics report counts subscriptions: a
    [connect] raises it by one when the connection was not yet subscribed
    to that tenant and table and leaves it alone when it was, so after any
    sequence of [connect] calls on a fresh manager the total is at most
    the number of calls. *)
Theorem stats_count_subscriptions :
  (forall st websocket project_id table_name user listener_started,
      total_connections
        (get_connection_stats
           (connect st websocket project_id table_name user listener_started))
      = (total_connections (get_connection_stats st)
         + if bool_decide (websocket ∈ subscribers st project_id table_name)
           then 0 else 1)%nat)
  /\ (forall calls,
        (total_connections (get_connection_stats (connect_all calls))
         <= List.length calls)%nat).
Proof.
  split.
  - intros. rewrite !stats_total. apply connect_adds_a_subscription.
  - intros calls. rewrite stats_total. unfold connect_all.
    assert (Hgen : forall st,
              (subscriptions
                 (connections
                    (fold_left (fun st c =>
                       connect st (call_websocket c) (call_project c) (call_table c)
                               (call_user c) (call_listener_started c)) calls st))
               <= subscriptions (connections st) + List.length calls)%nat).
    { induction calls as [|c calls IH]; intros st; simpl; [lia|].
      etrans; [apply IH|]. rewrite connect_adds_a_subscription.
      destruct (bool_decide _); lia. }
    apply (Hgen empty).
Qed.

Lemma count_tables_stats (items : Tables) (table_stats : list (string * nat)) (n : nat) :
  NoDup (map fst table_stats ++ map fst items) ->
  fst (count_tables items table_stats n)
  = (table_stats ++ map (fun item => (fst item, size (snd item))) items)%list.
Proof.
  revert table_stats n. induction items as [|[t subs] items IH]; intros acc n Hnd;
    cbn [count_tables map fst snd].
  - by rewrite app_nil_r.
  - cbv zeta. cbn [map fst] in Hnd.
    assert (Hfresh : ~ In t (map fst acc)).
    { intros Hin. apply NoDup_app in Hnd as (_ & Hdis & _).
      apply (Hdis t); [by apply list_elem_of_In|]. apply elem_of_cons. by left. }
    rewrite (dict_set_notin acc t _ Hfresh). rewrite IH.
    + by rewrite <- app_assoc.
    + rewrite map_app. cbn [map fst]. by rewrite <- app_assoc.
Qed.

Lemma count_projects_stats (items : list (Z * Tables))
    (project_stats : list (Z * ProjectStats)) (n : nat) :
  NoDup (map fst project_stats ++ map fst items) ->
  fst (count_projects items project_stats n)
  = (project_stats
     ++ map (fun item => (fst item,
                          {| total := snd (count_tables (snd item) [] 0);
                             tables := fst (count_tables (snd item) [] 0) |})) items)%list.
Proof.
  revert project_stats n. induction items as [|[p tbls] items IH]; intros acc n Hnd;
    cbn [count_projects map fst snd].
  - by rewrite app_nil_r.
  - cbn [map fst] in Hnd.
    assert (Hfresh : ~ In p (map fst acc)).
    { intros Hin. apply NoDup_app in Hnd as (_ & Hdis & _).
      apply (Hdis p); [by apply list_elem_of_In|]. apply elem_of_cons. by left. }
    destruct (count_tables tbls [] 0) as [table_stats project_total].
    cbn [fst snd]. rewrite (dict_set_notin acc p _ Hfresh). rewrite IH.
    + by rewrite <- app_assoc.
    + rewrite map_app. cbn [map fst]. by rewrite <- app_assoc.
Qed.

Lemma dict_get_map {K V W : Type} `{EqDecision K} (f : V -> W) (d : list (K * V)) (k : K) :
  dict_get k (map (fun item => (fst item, f (snd item))) d) = f <$> dict_get k d.
Proof.
  induction d as [|[k' v'] d IH]; simpl; [done|].
  by destruct (decide (k' = k)).
Qed.

(** X28.  On a registry as [connect] builds it, the statistics list for
    every tenant and table the size of its subscriber set, and 0 for a
    tenant or table nobody is subscribed to. *)
Theorem stats_agree_with_the_registry (st : State) (project_id : Z)
    (table_name : string) :
  clean (connections st) ->
  reported (get_connection_stats st) project_id table_name
  = size (subscribers st project_id table_name).
Proof.
  intros [Hnd Hall]. unfold reported, get_connection_stats, subscribers.
  pose proof (count_projects_stats (connections st) [] 0 Hnd) as Hstats.
  destruct (count_projects (connections st) [] 0) as [project_stats n].
  cbn [fst app] in Hstats. cbn [projects]. rewrite Hstats.
  rewrite (dict_get_map (fun tbls => {| total := snd (count_tables tbls [] 0);
                                        tables := fst (count_tables tbls [] 0) |})).
  destruct (dict_get project_id (connections st)) as [tbls|] eqn:Hp;
    cbn [fmap option_fmap option_map]; [|by rewrite size_empty].
  cbn [tables].
  apply dict_get_In, list_elem_of_In in Hp. rewrite Forall_forall in Hall.
  destruct (Hall _ Hp) as (_ & Hnd' & _).
  rewrite (count_tables_stats tbls [] 0 Hnd'). cbn [app].
  rewrite (dict_get_map (size : gset nat -> nat)).
  destruct (dict_get table_name tbls); cbn [fmap option_fmap option_map]; [done|].
  by rewrite size_empty.
Qed.

Lemma stats_agree_with_the_registry_witness :
  reported (get_connection_stats shared_table) 1 "orders" = 2%nat.
Proof.
  rewrite (stats_agree_with_the_registry shared_table 1 "orders" shared_table_is_clean).
  vm_compute. reflexivity.
Defined.

End RegistryFacts.
